(** * An OpenAI-compatible server: backend registry, mock backend,
      stream framing and request handlers

    Shallow embedding of
      - app/core/llm/base.py      (response builders),
      - app/core/llm/mock_llm.py  (the mock backend),
      - app/core/llm/factory.py   (the backend registry),
      - app/utils/api.py          (error envelope, stream framer),
      - app/schemas/*.py          (the field validators),
      - app/api/*.py              (the two generation handlers).

    Conventions.
      - A Python [str] is a list of Unicode code points ([N]); a Python
        [int] is a [Z]; [None]-able values are [option]s.
      - A Python dictionary with a fixed set of keys is a record; a key
        that may be missing is an [option] field.
      - Code that may raise returns a [result]; only instances of
        [Exception] are modelled, which is what [except Exception]
        catches.
      - The class attributes of [LLMFactory] are process-wide mutable
        state: they are fields of [Process], threaded through every
        operation together with the allocator of object identities. *)

From Stdlib Require Import ZArith QArith.QArith_base Strings.String Strings.Ascii.
From Stdlib Require Import Numbers.DecimalString.
From stdpp Require Import base option list gmap fin_maps.

Local Open Scope Z_scope.

(* ===================================================================== *)
(** * Python strings *)
(* ===================================================================== *)

Module PyStr.

(** One Unicode code point. *)
Definition char : Type := N.

(** [str]: an immutable sequence of code points. *)
Definition str : Type := list char.

(** An ASCII literal of the source, as a [str]. *)
Definition lit (s : string) : str :=
  List.map N_of_ascii (list_ascii_of_string s).

(** [str.isspace] on one code point: the code points for which CPython's
    [Py_UNICODE_ISSPACE] holds. *)
Definition isspace (c : char) : bool :=
  ((9 <=? c) && (c <=? 13) || (28 <=? c) && (c <=? 32)
   || (c =? 133) || (c =? 160) || (c =? 5760)
   || (8192 <=? c) && (c <=? 8202)
   || (c =? 8232) || (c =? 8233) || (c =? 8239) || (c =? 8287)
   || (c =? 12288))%N.

(** [s.split()] with no separator: runs of whitespace separate the words,
    leading and trailing whitespace is dropped, no empty word is produced.
    [cur] is the word being scanned, most recent code point first. *)
Fixpoint split_from (cur : str) (s : str) : list str :=
  match s with
  | [] => match cur with [] => [] | _ => [rev cur] end
  | c :: s' =>
      if isspace c then
        match cur with
        | [] => split_from [] s'
        | _ => rev cur :: split_from [] s'
        end
      else split_from (c :: cur) s'
  end.

Definition split (s : str) : list str := split_from [] s.

(** [len(x)] *)
Definition len {A} (l : list A) : Z := Z.of_nat (length l).

(** [str(n)] for an [int], as interpolated by an f-string. *)
Definition str_of_int (n : Z) : str :=
  lit (NilEmpty.string_of_int (Z.to_int n)).

(** [enumerate(l)] *)
Fixpoint enumerate_from {A} (i : Z) (l : list A) : list (Z * A) :=
  match l with
  | [] => []
  | x :: l' => (i, x) :: enumerate_from (i + 1) l'
  end.

Definition enumerate {A} (l : list A) : list (Z * A) := enumerate_from 0 l.

(** [sum(...)] over a list of ints *)
Definition sum (l : list Z) : Z := fold_right Z.add 0 l.

(** [''.join(l)] *)
Definition join_all (l : list str) : str := concat l.

End PyStr.
Import PyStr.

(* ===================================================================== *)
(** * Exceptions *)
(* ===================================================================== *)

(** The classes of [Exception] that the modelled code raises or tells
    apart; [OtherException] stands for any other subclass of [Exception]
    that is not a [ValueError]. *)
Inductive exc_class : Type :=
| ValueError
| IndexError
| OtherException (qualname : str).

(** An exception instance; [exc_msg] is [str(e)]. *)
Record PyException : Type := mkExc {
  exc_type : exc_class;
  exc_msg : str
}.

(** [isinstance(e, ValueError)] *)
Definition isinstance_ValueError (e : PyException) : bool :=
  match exc_type e with ValueError => true | _ => false end.

(** A computation that returns a value or raises. *)
Definition result (A : Type) : Type := PyException + A.

Definition ret {A} (x : A) : result A := inr x.
Definition raise {A} (e : PyException) : result A := inl e.

(* ===================================================================== *)
(** * app/core/llm/base.py: response dictionaries and builders *)
(* ===================================================================== *)

(** The ["usage"] dictionary. *)
Record Usage : Type := mkUsage {
  prompt_tokens : Z;
  completion_tokens : Z;
  total_tokens : Z
}.

(** An element of ["choices"] of a text completion (result or chunk). *)
Record CompletionChoice : Type := mkCompletionChoice {
  text : str;
  index : Z;
  logprobs : option unit;          (* always [None] *)
  finish_reason : option str
}.

(** A text completion dictionary; a chunk has no ["usage"] key unless it
    is the final one. *)
Record Completion : Type := mkCompletion {
  id : str;
  object : str;
  created : Z;
  model : str;
  choices : list CompletionChoice;
  usage : option Usage
}.

(** One conversation turn, [ChatCompletionMessage.model_dump()]. *)
Record Message : Type := mkMessage {
  role : str;
  content : str;
  name : option str
}.

(** The ["message"] of a chat completion choice. *)
Record ChatMessage : Type := mkChatMessage {
  msg_role : str;
  msg_content : str
}.

Record ChatChoice : Type := mkChatChoice {
  chat_index : Z;
  message : ChatMessage;
  chat_finish_reason : option str
}.

Record ChatCompletion : Type := mkChatCompletion {
  chat_id : str;
  chat_object : str;
  chat_created : Z;
  chat_model : str;
  chat_choices : list ChatChoice;
  chat_usage : Usage
}.

(** The ["delta"] of a chat chunk: each key may be missing. *)
Record Delta : Type := mkDelta {
  delta_role : option str;
  delta_content : option str
}.

Record ChunkChoice : Type := mkChunkChoice {
  chunk_index : Z;
  delta : Delta;
  chunk_finish_reason : option str
}.

Record ChatChunk : Type := mkChatChunk {
  chunk_id : str;
  chunk_object : str;
  chunk_created : Z;
  chunk_model : str;
  chunk_choices : list ChunkChoice;
  chunk_usage : option Usage
}.

(** A model descriptor of [get_models]. *)
Record ModelInfo : Type := mkModelInfo {
  info_id : str;
  info_object : str;
  info_created : Z;
  info_owned_by : str;
  info_permission : list unit;      (* always [[]] *)
  info_root : str;
  info_parent : option str
}.

(** The wall clock as one call sees it: [now k] is what the [k]-th call of
    [_get_current_timestamp] made during that call returns. *)
Definition clock : Type := nat -> Z.

Definition _create_completion_response (now : clock)
    (text_ : str) (model_ : str) (prompt_tokens_ completion_tokens_ : Z)
    : Completion :=
  {| id := lit "cmpl-" ++ str_of_int (now 0%nat);
     object := lit "text_completion";
     created := now 1%nat;
     model := model_;
     choices := [ {| text := text_; index := 0; logprobs := None;
                     finish_reason := Some (lit "stop") |} ];
     usage := Some {| prompt_tokens := prompt_tokens_;
                      completion_tokens := completion_tokens_;
                      total_tokens := prompt_tokens_ + completion_tokens_ |} |}.

Definition _create_chat_completion_response (now : clock)
    (content_ : str) (model_ : str) (prompt_tokens_ completion_tokens_ : Z)
    : ChatCompletion :=
  {| chat_id := lit "chatcmpl-" ++ str_of_int (now 0%nat);
     chat_object := lit "chat.completion";
     chat_created := now 1%nat;
     chat_model := model_;
     chat_choices := [ {| chat_index := 0;
                          message := {| msg_role := lit "assistant";
                                        msg_content := content_ |};
                          chat_finish_reason := Some (lit "stop") |} ];
     chat_usage := {| prompt_tokens := prompt_tokens_;
                      completion_tokens := completion_tokens_;
                      total_tokens := prompt_tokens_ + completion_tokens_ |} |}.

(** An asynchronous generator, as its consumer sees it: the items it
    yields, then either exhaustion or an exception. *)
Inductive gen_end : Type :=
| Exhausted
| Raised (e : PyException).

Record generator (A : Type) : Type := mkGen {
  gen_items : list A;
  gen_stop : gen_end
}.
Arguments mkGen {A} _ _.
Arguments gen_items {A} _.
Arguments gen_stop {A} _.

(* ===================================================================== *)
(** * app/core/llm/mock_llm.py *)
(* ===================================================================== *)

Module MockLLM.

Definition model_name : str := lit "mock-gpt".
Definition model_id : str := lit "mock-gpt-1".

Definition complete (now : clock) (prompt : str) : Completion :=
  let response_text := lit "This is a mock response to: " ++ prompt in
  let prompt_tokens := len (split prompt) in
  let completion_tokens := len (split response_text) in
  _create_completion_response now response_text model_name
    prompt_tokens completion_tokens.

Definition complete_stream (now : clock) (prompt : str)
    : generator Completion :=
  let response_text := lit "This is a mock response to: " ++ prompt in
  let words := split response_text in
  let completion_id := lit "cmpl-" ++ str_of_int (now 0%nat) in
  let created_ := now 1%nat in
  let prompt_tokens := len (split prompt) in
  let word_chunks :=
    List.map (fun '(i, word) =>
      let is_last := (i =? len words - 1) in
      let finish_reason_ := if is_last then Some (lit "stop") else None in
      {| id := completion_id;
         object := lit "text_completion";
         created := created_;
         model := model_name;
         choices := [ {| text := word ++ lit " "; index := 0;
                         logprobs := None;
                         finish_reason := finish_reason_ |} ];
         usage := None |})
      (enumerate words) in
  let completion_tokens := len words in
  let final_chunk :=
    {| id := completion_id;
       object := lit "text_completion";
       created := created_;
       model := model_name;
       choices := [ {| text := []; index := 0; logprobs := None;
                       finish_reason := Some (lit "stop") |} ];
       usage := Some {| prompt_tokens := prompt_tokens;
                        completion_tokens := completion_tokens;
                        total_tokens := prompt_tokens + completion_tokens |} |} in
  mkGen (word_chunks ++ [final_chunk]) Exhausted.

(** [messages[-1] if messages else {"role": "user", "content": ""}] *)
Definition last_message (messages : list Message) : Message :=
  match last messages with
  | Some m => m
  | None => {| role := lit "user"; content := []; name := None |}
  end.

Definition response_content (messages : list Message) : str :=
  let last_message := last_message messages in
  if decide (role last_message = lit "user")
  then lit "This is a mock chat response to: " ++ content last_message
  else lit "I'm a mock AI assistant. How can I help you today?".

(** [sum(len(msg.get("content", "").split()) for msg in messages)] *)
Definition count_prompt_tokens (messages : list Message) : Z :=
  sum (List.map (fun msg => len (split (content msg))) messages).

Definition chat_complete (now : clock) (messages : list Message)
    : ChatCompletion :=
  let response_content := response_content messages in
  let prompt_tokens := count_prompt_tokens messages in
  let completion_tokens := len (split response_content) in
  _create_chat_completion_response now response_content model_name
    prompt_tokens completion_tokens.

Definition chat_complete_stream (now : clock) (messages : list Message)
    : generator ChatChunk :=
  let response_content := response_content messages in
  let words := split response_content in
  let completion_id := lit "chatcmpl-" ++ str_of_int (now 0%nat) in
  let created_ := now 1%nat in
  let prompt_tokens := count_prompt_tokens messages in
  let chunk_of (d : Delta) (fr : option str) (u : option Usage) :=
    {| chunk_id := completion_id;
       chunk_object := lit "chat.completion.chunk";
       chunk_created := created_;
       chunk_model := model_name;
       chunk_choices := [ {| chunk_index := 0; delta := d;
                             chunk_finish_reason := fr |} ];
       chunk_usage := u |} in
  let initial_chunk :=
    chunk_of {| delta_role := Some (lit "assistant");
                delta_content := None |} None None in
  let word_chunks :=
    List.map (fun '(i, word) =>
      let is_last := (i =? len words - 1) in
      let finish_reason_ := if is_last then Some (lit "stop") else None in
      chunk_of {| delta_role := None;
                  delta_content := Some (word ++ lit " ") |}
               finish_reason_ None)
      (enumerate words) in
  let completion_tokens := len words in
  let final_chunk :=
    chunk_of {| delta_role := None; delta_content := None |}
      (Some (lit "stop"))
      (Some {| prompt_tokens := prompt_tokens;
               completion_tokens := completion_tokens;
               total_tokens := prompt_tokens + completion_tokens |}) in
  mkGen (initial_chunk :: word_chunks ++ [final_chunk]) Exhausted.

(** [int(datetime(2023, 1, 1).timestamp())] depends on the time zone of
    the process; [tz_created] is that value. *)
Definition get_models (tz_created : Z) : list ModelInfo :=
  [ {| info_id := model_id; info_object := lit "model";
       info_created := tz_created;
       info_owned_by := lit "mock-organization";
       info_permission := [];
       info_root := model_id;
       info_parent := None |} ].

End MockLLM.

(* ===================================================================== *)
(** * The backend contract (abstract class [BaseLLM]) *)
(* ===================================================================== *)

(** The keyword arguments every generation call receives.  Floats are
    only passed through; they are kept as the rational they denote. *)
Record GenParams : Type := mkGenParams {
  max_tokens : option Z;
  temperature : option Q;
  top_p : option Q;
  n : option Z;
  stop : option (str + list str);
  presence_penalty : option Q;
  frequency_penalty : option Q;
  logit_bias : option (list (str * Q));
  user : option str
}.

(** A concrete subclass of [BaseLLM], given by what its methods do.  A
    call may raise; a stream may raise while it is consumed. *)
Record llm_class : Type := mkClass {
  complete : clock -> GenParams -> str -> result Completion;
  complete_stream : clock -> GenParams -> str -> result (generator Completion);
  chat_complete : clock -> GenParams -> list Message -> result ChatCompletion;
  chat_complete_stream :
    clock -> GenParams -> list Message -> result (generator ChatChunk);
  get_models : list ModelInfo
}.

(** The class [MockLLM]; every argument but the prompt is ignored. *)
Definition MockLLM_class (tz_created : Z) : llm_class :=
  {| complete := fun now _ prompt => ret (MockLLM.complete now prompt);
     complete_stream := fun now _ prompt =>
       ret (MockLLM.complete_stream now prompt);
     chat_complete := fun now _ messages =>
       ret (MockLLM.chat_complete now messages);
     chat_complete_stream := fun now _ messages =>
       ret (MockLLM.chat_complete_stream now messages);
     get_models := MockLLM.get_models tz_created |}.

(** An object of such a class; [obj_id] is its identity ([id(obj)]). *)
Record Instance : Type := mkInstance {
  obj_id : nat;
  obj_class : llm_class
}.

(** A call of a backend method, as recorded in the call log. *)
Inductive BackendCall : Type :=
| CallComplete (self : nat) (prompt : str)
| CallCompleteStream (self : nat) (prompt : str)
| CallChatComplete (self : nat) (messages : list Message)
| CallChatCompleteStream (self : nat) (messages : list Message).

(* ===================================================================== *)
(** * Process state *)
(* ===================================================================== *)

(** An insertion-ordered dictionary with keys of type [str]. *)
Definition odict (V : Type) : Type := list (str * V).

Fixpoint odict_get {V} (k : str) (d : odict V) : option V :=
  match d with
  | [] => None
  | (k', v) :: d' => if decide (k' = k) then Some v else odict_get k d'
  end.

(** [d[k] = v]: an existing key keeps its position. *)
Fixpoint odict_set {V} (k : str) (v : V) (d : odict V) : odict V :=
  match d with
  | [] => [(k, v)]
  | (k', v') :: d' =>
      if decide (k' = k) then (k, v) :: d' else (k', v') :: odict_set k v d'
  end.

(** The class attributes of [LLMFactory], the allocator of object
    identities, and two logs that the code does not keep: the model names
    whose class was instantiated, and the backend calls made, both in
    order. *)
Record Process : Type := mkProcess {
  _llm_classes : odict llm_class;
  _instances : gmap str Instance;
  _default_model : option str;
  next_obj_id : nat;
  constructed : list str;
  calls : list BackendCall
}.

(** The state when the module [factory] has just been imported. *)
Definition process_start : Process :=
  {| _llm_classes := []; _instances := ∅; _default_model := None;
     next_obj_id := 0%nat; constructed := []; calls := [] |}.

(** Stateful code that may raise: the state survives an exception. *)
Definition M (A : Type) : Type := Process -> result A * Process.

Definition M_ret {A} (x : A) : M A := fun p => (inr x, p).
Definition M_raise {A} (e : PyException) : M A := fun p => (inl e, p).
Definition M_bind {A B} (k : A -> M B) (m : M A) : M B :=
  fun p => match m p with
           | (inr x, p') => k x p'
           | (inl e, p') => (inl e, p')
           end.
Definition lift {A} (r : result A) : M A := fun p => (r, p).
Definition log_call (c : BackendCall) : M unit :=
  fun p => (inr tt,
            {| _llm_classes := _llm_classes p; _instances := _instances p;
               _default_model := _default_model p;
               next_obj_id := next_obj_id p; constructed := constructed p;
               calls := calls p ++ [c] |}).

#[global] Instance M_mret : MRet M := @M_ret.
#[global] Instance M_mbind : MBind M := @M_bind.

(* ===================================================================== *)
(** * app/core/llm/factory.py *)
(* ===================================================================== *)

Module LLMFactory.

Definition register (model_name : str) (llm_class_ : llm_class)
    (is_default : bool) (p : Process) : Process :=
  {| _llm_classes := odict_set model_name llm_class_ (_llm_classes p);
     _instances := _instances p;
     _default_model :=
       if is_default || negb (bool_decide (is_Some (_default_model p)))
       then Some model_name else _default_model p;
     next_obj_id := next_obj_id p;
     constructed := constructed p;
     calls := calls p |}.

(** [cls._instances[model_name] = cls._llm_classes[model_name]()] for a
    class [c]: a fresh object is allocated and stored.  Calling a
    registered class is taken to return an object, as it does for
    [MockLLM], whose [__init__] only sets two attributes. *)
Definition instantiate (model_name : str) (c : llm_class) (p : Process)
    : Process :=
  {| _llm_classes := _llm_classes p;
     _instances :=
       <[model_name := {| obj_id := next_obj_id p; obj_class := c |}]>
         (_instances p);
     _default_model := _default_model p;
     next_obj_id := S (next_obj_id p);
     constructed := constructed p ++ [model_name];
     calls := calls p |}.

(** The first step of [get_instance]: the default stands in for [None]. *)
Definition default_if_none (model_name : option str) : M str :=
  match model_name with
  | None => fun p =>
      match _default_model p with
      | None =>
          M_raise (mkExc ValueError (lit "No default model registered")) p
      | Some d => M_ret d p
      end
  | Some name => M_ret name
  end.

(** The second step: the cached instance, created first if missing. *)
Definition cached_or_new (model_name : str) : M Instance :=
  fun p =>
    match _instances p !! model_name with
    | Some inst => (inr inst, p)
    | None =>
        match odict_get model_name (_llm_classes p) with
        | None =>
            (inl (mkExc ValueError
                    (lit "Model '" ++ model_name ++ lit "' not found")), p)
        | Some c =>
            let p' := instantiate model_name c p in
            match _instances p' !! model_name with
            | Some inst => (inr inst, p')
            | None =>
                (* KeyError; the key was stored on the previous line *)
                (inl (mkExc (OtherException (lit "KeyError")) model_name), p')
            end
        end
    end.

Definition get_instance (model_name : option str) : M Instance :=
  model_name ← default_if_none model_name;
  cached_or_new model_name.

(** The loop of [get_available_models] over the registered names. *)
Fixpoint collect_models (names : list str) (models : list ModelInfo)
    (p : Process) : list ModelInfo * Process :=
  match names with
  | [] => (models, p)
  | model_name :: rest =>
      let p1 :=
        match _instances p !! model_name with
        | Some _ => p
        | None =>
            match odict_get model_name (_llm_classes p) with
            | Some c => instantiate model_name c p
            | None => p   (* a key of the dictionary being iterated *)
            end
        end in
      let llm_models :=
        match _instances p1 !! model_name with
        | Some inst => get_models (obj_class inst)
        | None => []
        end in
      collect_models rest (models ++ llm_models) p1
  end.

Definition get_available_models (p : Process) : list ModelInfo * Process :=
  collect_models (List.map fst (_llm_classes p)) [] p.

End LLMFactory.

(* ===================================================================== *)
(** * app/utils/api.py *)
(* ===================================================================== *)

(** The dictionary under the key ["error"]. *)
Record ErrorDict : Type := mkErrorDict {
  err_message : str;
  err_type : str;
  err_param : option str;
  err_code : option str
}.

(** One element of the body of a streaming response:
    [DataChunk c] is ["data: " + json.dumps(c) + "\n\n"],
    [DataError d] is ["data: " + json.dumps({"error": d}) + "\n\n"],
    [DONE] is ["data: [DONE]\n\n"].
    The chunks are dictionaries of strings, integers, lists and [None],
    which [json.dumps] serialises without raising. *)
Inductive frame (C : Type) : Type :=
| DataChunk (chunk : C)
| DataError (error_data : ErrorDict)
| DONE.
Arguments DataChunk {C} _.
Arguments DataError {C} _.
Arguments DONE {C}.

(** What a handler returns: [R] is the type of a completed result, [C]
    the type of a stream chunk. *)
Inductive Response (R C : Type) : Type :=
| JSONResponse (status_code : Z) (error : ErrorDict)
| Returned (response : R)
| StreamingResponse (body : list (frame C)) (media_type : str).
Arguments JSONResponse {R C} _ _.
Arguments Returned {R C} _.
Arguments StreamingResponse {R C} _ _.

(** Truth value of an optional string: [None] and [""] are false. *)
Definition truthy_opt_str (s : option str) : bool :=
  match s with Some (_ :: _) => true | _ => false end.

Definition create_error_response {R C} (message_ type_ : str)
    (status_code : Z) (param code : option str) : Response R C :=
  JSONResponse status_code
    {| err_message := message_;
       err_type := type_;
       err_param := if truthy_opt_str param then param else None;
       err_code := if truthy_opt_str code then code else None |}.

Definition HTTP_400_BAD_REQUEST : Z := 400.
Definition HTTP_500_INTERNAL_SERVER_ERROR : Z := 500.

(** The inner [stream_generator] of [create_stream_response], run on what
    is left of the wrapped generator: [items] still to come, then [stop]. *)
Fixpoint stream_frames {C} (items : list C) (stop_ : gen_end)
    : list (frame C) :=
  match items with
  | chunk :: rest => DataChunk chunk :: stream_frames rest stop_
  | [] =>
      match stop_ with
      | Exhausted => [DONE]
      | Raised e =>
          [ DataError {| err_message := exc_msg e;
                         err_type := lit "server_error";
                         err_param := None; err_code := None |};
            DONE ]
      end
  end.

Definition stream_generator {C} (g : generator C) : list (frame C) :=
  stream_frames (gen_items g) (gen_stop g).

Definition create_stream_response {R C} (g : generator C) : Response R C :=
  StreamingResponse (stream_generator g) (lit "text/event-stream").

(* ===================================================================== *)
(** * app/schemas: requests and their field validators *)
(* ===================================================================== *)

(** The values a prompt list can hold. *)
#[warnings="-register-all"]
Inductive pyval : Type :=
| VStr (s : str)
| VInt (z : Z)
| VList (l : list pyval).

(** [Union[str, List[...]]]: a prompt is a string or a list. *)
Inductive Prompt : Type :=
| PromptStr (s : str)
| PromptList (l : list pyval).

Definition is_str (v : pyval) : bool :=
  match v with VStr _ => true | _ => false end.
Definition is_int (v : pyval) : bool :=
  match v with VInt _ => true | _ => false end.
Definition is_list (v : pyval) : bool :=
  match v with VList _ => true | _ => false end.

(** Truth value of a list. *)
Definition truthy {A} (l : list A) : bool :=
  match l with [] => false | _ :: _ => true end.

Record CompletionRequest : Type := mkCompletionRequest {
  cr_model : str;
  cr_prompt : Prompt;
  cr_stream : option bool;
  cr_best_of : option Z;
  cr_params : GenParams
}.

Record ChatCompletionRequest : Type := mkChatCompletionRequest {
  ccr_model : str;
  ccr_messages : list Message;
  ccr_stream : option bool;
  ccr_params : GenParams
}.

Definition MSG_PROMPT_MIXED : str :=
  lit "prompt" ++
  [21015; 34920; 20803; 32032; 31867; 22411; 24517; 39035; 19968; 33268]%N.
Definition MSG_BEST_OF_LT_1 : str :=
  lit "best_of" ++ [24517; 39035; 22823; 20110; 31561; 20110]%N ++ lit "1".
Definition MSG_BEST_OF_LT_N : str :=
  lit "best_of" ++ [24517; 39035; 22823; 20110; 31561; 20110]%N ++ lit "n".
Definition MSG_MESSAGES_EMPTY : str :=
  lit "messages" ++ [19981; 33021; 20026; 31354]%N.

(** [CompletionRequest.validate_prompt] *)
Definition validate_prompt (v : Prompt) : result Prompt :=
  match v with
  | PromptList l =>
      if negb (truthy l) then ret (PromptStr [])
      else if forallb is_int l then ret v
      else if forallb is_list l
              && forallb (fun x => match x with
                                   | VList ys => forallb is_int ys
                                   | _ => true
                                   end) l
      then ret v
      else if forallb is_str l then ret v
      else raise (mkExc ValueError MSG_PROMPT_MIXED)
  | PromptStr _ => ret v
  end.

(** [CompletionRequest.validate_best_of]; [n_] is [info.data["n"]]. *)
Definition validate_best_of (v : option Z) (n_ : option Z)
    : result (option Z) :=
  match v with
  | Some b =>
      if b <? 1 then raise (mkExc ValueError MSG_BEST_OF_LT_1)
      else match n_ with
           | Some k =>
               if b <? k then raise (mkExc ValueError MSG_BEST_OF_LT_N)
               else ret v
           | None => ret v
           end
  | None => ret v
  end.

(** [ChatCompletionRequest.validate_messages] *)
Definition validate_messages (v : list Message) : result (list Message) :=
  if negb (truthy v) then raise (mkExc ValueError MSG_MESSAGES_EMPTY)
  else ret v.

Definition errors_of {A} (r : result A) : list PyException :=
  match r with inl e => [e] | inr _ => [] end.

(** The field validators of [CompletionRequest], run on the field values
    as pydantic hands them over, every failure collected.  What pydantic
    does on its own before that (the type checks and coercions of the
    annotations, the [Field] bounds, the defaults of omitted fields, for
    which no validator runs) is not part of this development: a record
    [raw] stands for field values that have passed it. *)
Definition CompletionRequest_validate (raw : CompletionRequest)
    : list PyException + CompletionRequest :=
  match validate_prompt (cr_prompt raw),
        validate_best_of (cr_best_of raw) (n (cr_params raw)) with
  | inr v, inr b =>
      inr {| cr_model := cr_model raw; cr_prompt := v;
             cr_stream := cr_stream raw; cr_best_of := b;
             cr_params := cr_params raw |}
  | r1, r2 => inl (errors_of r1 ++ errors_of r2)
  end.

(** The validator [validate_messages] of [ChatCompletionRequest], run on
    the message list as pydantic hands it over.  As above, pydantic's own
    checks are not part of this development, and neither is the
    validator [validate_role] of [ChatCompletionMessage]: [raw] stands for
    messages that have passed them. *)
Definition ChatCompletionRequest_validate (raw : ChatCompletionRequest)
    : list PyException + ChatCompletionRequest :=
  match validate_messages (ccr_messages raw) with
  | inr v =>
      inr {| ccr_model := ccr_model raw; ccr_messages := v;
             ccr_stream := ccr_stream raw; ccr_params := ccr_params raw |}
  | r => inl (errors_of r)
  end.

(* ===================================================================== *)
(** * app/api: the generation handlers *)
(* ===================================================================== *)

(** [try: body except ValueError as e: h1(e) except Exception as e: h2(e)] *)
Definition try_except {A} (body : M A)
    (except_ValueError except_Exception : PyException -> M A) : M A :=
  fun p =>
    match body p with
    | (inr x, p') => (inr x, p')
    | (inl e, p') =>
        if isinstance_ValueError e then except_ValueError e p'
        else except_Exception e p'
    end.

(** [all(isinstance(x, str) for x in prompt)]: when every element is a
    string the list is returned as the list of strings it is. *)
Fixpoint all_str (l : list pyval) : option (list str) :=
  match l with
  | [] => Some []
  | VStr s :: l' => match all_str l' with
                    | Some ss => Some (s :: ss)
                    | None => None
                    end
  | _ :: _ => None
  end.

(** [l[0]] *)
Definition getitem0 {A} (l : list A) : result A :=
  match l with
  | x :: _ => ret x
  | [] => raise (mkExc IndexError (lit "list index out of range"))
  end.

(** Truth value of [request.stream]. *)
Definition stream_requested (s : option bool) : bool :=
  match s with Some true => true | _ => false end.

Module completions.

(** The statements of the [try] block after the prompt is a string. *)
Definition generate (now : clock) (request : CompletionRequest)
    (llm : Instance) (prompt : str)
    : M (Response Completion Completion) :=
  if stream_requested (cr_stream request) then
    log_call (CallCompleteStream (obj_id llm) prompt);;
    generator_ ← lift (complete_stream (obj_class llm) now
                         (cr_params request) prompt);
    M_ret (create_stream_response generator_)
  else
    log_call (CallComplete (obj_id llm) prompt);;
    response ← lift (complete (obj_class llm) now
                       (cr_params request) prompt);
    M_ret (Returned response).

(** The [try] block. *)
Definition try_block (now : clock) (request : CompletionRequest)
    : M (Response Completion Completion) :=
  llm ← LLMFactory.get_instance (Some (cr_model request));
  match cr_prompt request with
  | PromptList l =>
      match all_str l with
      | Some strs =>
          prompt ← lift (if truthy strs then getitem0 strs else ret []);
          generate now request llm prompt
      | None =>
          M_ret (create_error_response
                   (lit "Token lists as prompts are not supported")
                   (lit "invalid_request_error")
                   HTTP_400_BAD_REQUEST
                   (Some (lit "prompt")) None)
      end
  | PromptStr prompt => generate now request llm prompt
  end.

Definition create_completion (now : clock) (request : CompletionRequest)
    : M (Response Completion Completion) :=
  try_except (try_block now request)
    (fun e => M_ret (create_error_response (exc_msg e)
                       (lit "invalid_request_error")
                       HTTP_400_BAD_REQUEST None None))
    (fun e => M_ret (create_error_response
                       (lit "Completion request failed: " ++ exc_msg e)
                       (lit "server_error")
                       HTTP_500_INTERNAL_SERVER_ERROR None None)).

End completions.

Module chat_completions.

Definition try_block (now : clock) (request : ChatCompletionRequest)
    : M (Response ChatCompletion ChatChunk) :=
  llm ← LLMFactory.get_instance (Some (ccr_model request));
  if stream_requested (ccr_stream request) then
    log_call (CallChatCompleteStream (obj_id llm) (ccr_messages request));;
    generator_ ← lift (chat_complete_stream (obj_class llm) now
                         (ccr_params request) (ccr_messages request));
    M_ret (create_stream_response generator_)
  else
    log_call (CallChatComplete (obj_id llm) (ccr_messages request));;
    response ← lift (chat_complete (obj_class llm) now
                       (ccr_params request) (ccr_messages request));
    M_ret (Returned response).

Definition create_chat_completion (now : clock)
    (request : ChatCompletionRequest)
    : M (Response ChatCompletion ChatChunk) :=
  try_except (try_block now request)
    (fun e => M_ret (create_error_response (exc_msg e)
                       (lit "invalid_request_error")
                       HTTP_400_BAD_REQUEST None None))
    (fun e => M_ret (create_error_response
                       (lit "Chat completion request failed: " ++ exc_msg e)
                       (lit "server_error")
                       HTTP_500_INTERNAL_SERVER_ERROR None None)).

End chat_completions.

(** What becomes of a request body whose fields have the declared types:
    either the request object cannot be built, and the handler does not
    run, or the handler's response. *)
Inductive Outcome (R C : Type) : Type :=
| RequestValidationError (errors : list PyException)
| Handled (response : Response R C).
Arguments RequestValidationError {R C} _.
Arguments Handled {R C} _.

(** [POST /completions]; a handler that raises is an [inl]. *)
Definition post_completions (now : clock) (raw : CompletionRequest)
    (p : Process) : result (Outcome Completion Completion) * Process :=
  match CompletionRequest_validate raw with
  | inl errs => (inr (RequestValidationError errs), p)
  | inr request =>
      match completions.create_completion now request p with
      | (inr r, p') => (inr (Handled r), p')
      | (inl e, p') => (inl e, p')
      end
  end.

(** [POST /chat/completions] *)
Definition post_chat_completions (now : clock) (raw : ChatCompletionRequest)
    (p : Process) : result (Outcome ChatCompletion ChatChunk) * Process :=
  match ChatCompletionRequest_validate raw with
  | inl errs => (inr (RequestValidationError errs), p)
  | inr request =>
      match chat_completions.create_chat_completion now request p with
      | (inr r, p') => (inr (Handled r), p')
      | (inl e, p') => (inl e, p')
      end
  end.

(* ===================================================================== *)
(** * Observations on results and streams *)
(* ===================================================================== *)

(** [c["choices"][0]["text"]] of a text completion or chunk. *)
Definition choice0_text (c : Completion) : str :=
  match choices c with ch :: _ => text ch | [] => [] end.

(** [c["choices"][0]["finish_reason"]] *)
Definition choice0_finish (c : Completion) : option str :=
  match choices c with ch :: _ => finish_reason ch | [] => None end.

(** [r["choices"][0]["message"]["content"]] of a chat completion. *)
Definition choice0_content (r : ChatCompletion) : str :=
  match chat_choices r with ch :: _ => msg_content (message ch) | [] => [] end.

(** The content fragment of a chat chunk: nothing when the delta has no
    ["content"] key. *)
Definition delta0_content (c : ChatChunk) : str :=
  match chunk_choices c with
  | ch :: _ => match delta_content (delta ch) with Some s => s | None => [] end
  | [] => []
  end.

Definition delta0_finish (c : ChatChunk) : option str :=
  match chunk_choices c with ch :: _ => chunk_finish_reason ch | [] => None end.

(** The text a client rebuilds from a text completion stream. *)
Definition streamed_text (g : generator Completion) : str :=
  join_all (List.map choice0_text (gen_items g)).

(** The content a client rebuilds from a chat completion stream. *)
Definition streamed_content (g : generator ChatChunk) : str :=
  join_all (List.map delta0_content (gen_items g)).

(** A clock that always reads the same second. *)
Definition frozen_clock (t : Z) : clock := fun _ => t.

Definition STOP : option str := Some (lit "stop").

(* ===================================================================== *)
(** * Process histories *)
(* ===================================================================== *)

(** What can happen in the process once [factory] is imported. *)
Inductive op : Type :=
| OpRegister (model_name : str) (c : llm_class) (is_default : bool)
| OpGetInstance (model_name : option str)
| OpGetAvailableModels
| OpPostCompletions (now : clock) (raw : CompletionRequest)
| OpPostChatCompletions (now : clock) (raw : ChatCompletionRequest).

Definition do_op (o : op) (p : Process) : Process :=
  match o with
  | OpRegister model_name c is_default =>
      LLMFactory.register model_name c is_default p
  | OpGetInstance model_name => snd (LLMFactory.get_instance model_name p)
  | OpGetAvailableModels => snd (LLMFactory.get_available_models p)
  | OpPostCompletions now raw => snd (post_completions now raw p)
  | OpPostChatCompletions now raw => snd (post_chat_completions now raw p)
  end.

Definition run (ops : list op) (p : Process) : Process :=
  fold_left (fun q o => do_op o q) ops p.

Definition is_register (o : op) : bool :=
  match o with OpRegister _ _ _ => true | _ => false end.

(** How often the class registered under [model_name] was instantiated. *)
Definition times_constructed (model_name : str) (p : Process) : nat :=
  length (filter (fun k => k = model_name) (constructed p)).

(** The state after [main.py] has registered the mock backend. *)
Definition process_main (tz_created : Z) : Process :=
  LLMFactory.register (lit "mock-gpt") (MockLLM_class tz_created) true
    process_start.

(** One elementary change of the process state made outside [register]. *)
Inductive istep : Process -> Process -> Prop :=
| istep_instantiate model_name c p :
    _instances p !! model_name = None ->
    odict_get model_name (_llm_classes p) = Some c ->
    istep p (LLMFactory.instantiate model_name c p)
| istep_log c p :
    istep p (snd (log_call c p)).

(** One elementary change of the process state. *)
Inductive pstep : Process -> Process -> Prop :=
| pstep_register model_name c is_default p :
    pstep p (LLMFactory.register model_name c is_default p)
| pstep_internal p p' :
    istep p p' -> pstep p p'.

(** The invariant of the registry. *)
Record registry_inv (p : Process) : Prop := mkInv {
  inv_nodup : NoDup (constructed p);
  inv_constructed :
    forall k, k ∈ constructed p <-> is_Some (_instances p !! k);
  inv_default :
    forall d, _default_model p = Some d ->
              is_Some (odict_get d (_llm_classes p))
}.

(* ===================================================================== *)
(** * Words, frames and envelopes: what the statements speak of *)
(* ===================================================================== *)

(** A word as [split] produces them: not empty, free of whitespace. *)
Definition is_word (w : str) : Prop :=
  w <> [] /\ Forall (fun c => isspace c = false) w.

Definition is_done {C} (f : frame C) : bool :=
  match f with DONE => true | _ => false end.

Definition is_error {C} (f : frame C) : bool :=
  match f with DataError _ => true | _ => false end.

(** A chat completion result with its ["usage"] replaced. *)
Definition chat_with_usage (r : ChatCompletion) (u : Usage)
    : ChatCompletion :=
  {| chat_id := chat_id r; chat_object := chat_object r;
     chat_created := chat_created r; chat_model := chat_model r;
     chat_choices := chat_choices r; chat_usage := u |}.

(** A chat chunk with its ["usage"] replaced. *)
Definition chunk_with_usage (c : ChatChunk) (u : option Usage) : ChatChunk :=
  {| chunk_id := chunk_id c; chunk_object := chunk_object c;
     chunk_created := chunk_created c; chunk_model := chunk_model c;
     chunk_choices := chunk_choices c; chunk_usage := u |}.

(** The frames a response sends when it is a [StreamingResponse]; a
    response of another kind sends none. *)
Definition response_frames {R C} (r : Response R C) : list (frame C) :=
  match r with
  | StreamingResponse body _ => body
  | _ => []
  end.

(** The error event for an exception [e]:
    [{"error": {"message": str(e), "type": "server_error"}}]. *)
Definition server_error_data (e : PyException) : ErrorDict :=
  {| err_message := exc_msg e; err_type := lit "server_error";
     err_param := None; err_code := None |}.

(** The envelope a handler answers an exception [e] with; [prefix] is put
    before the message of a server error. *)
Definition translated {R C} (prefix : str) (e : PyException) : Response R C :=
  if isinstance_ValueError e then
    JSONResponse 400
      {| err_message := exc_msg e; err_type := lit "invalid_request_error";
         err_param := None; err_code := None |}
  else
    JSONResponse 500
      {| err_message := prefix ++ exc_msg e; err_type := lit "server_error";
         err_param := None; err_code := None |}.

(** The prompt string the handler goes on with, if any. *)
Definition normalized_prompt (v : Prompt) : option str :=
  match v with
  | PromptStr s => Some s
  | PromptList l =>
      match all_str l with
      | Some strs => Some (match strs with s :: _ => s | [] => [] end)
      | None => None
      end
  end.

(** The request with another prompt. *)
Definition with_prompt (request : CompletionRequest) (v : Prompt)
    : CompletionRequest :=
  {| cr_model := cr_model request; cr_prompt := v;
     cr_stream := cr_stream request; cr_best_of := cr_best_of request;
     cr_params := cr_params request |}.

(** The reply to a token list prompt. *)
Definition token_list_reply : Response Completion Completion :=
  JSONResponse 400
    {| err_message := lit "Token lists as prompts are not supported";
       err_type := lit "invalid_request_error";
       err_param := Some (lit "prompt");
       err_code := None |}.

(** The backend call that [create_completion] makes for the prompt [s]
    raises [e]. *)
Definition completion_call_raises (now : clock) (request : CompletionRequest)
    (llm : Instance) (s : str) (e : PyException) : Prop :=
  if stream_requested (cr_stream request)
  then complete_stream (obj_class llm) now (cr_params request) s = inl e
  else complete (obj_class llm) now (cr_params request) s = inl e.

(** The backend call that [create_chat_completion] makes raises [e]. *)
Definition chat_call_raises (now : clock) (request : ChatCompletionRequest)
    (llm : Instance) (e : PyException) : Prop :=
  if stream_requested (ccr_stream request)
  then chat_complete_stream (obj_class llm) now (ccr_params request)
         (ccr_messages request) = inl e
  else chat_complete (obj_class llm) now (ccr_params request)
         (ccr_messages request) = inl e.

(** The one backend call [generate] makes. *)
Definition generate_call (request : CompletionRequest) (llm : Instance)
    (prompt : str) : BackendCall :=
  if stream_requested (cr_stream request)
  then CallCompleteStream (obj_id llm) prompt
  else CallComplete (obj_id llm) prompt.

(* ===================================================================== *)
(** * Steps of the process state *)
(* ===================================================================== *)

(** A computation whose effect on the state is a sequence of elementary
    changes none of which is a registration. *)
Definition internal {A} (m : M A) : Prop :=
  forall p, rtc istep p (snd (m p)).

(** What holds at a state holds after any step, for each of: an instance
    is cached under a name; a name is registered; a name was
    instantiated; some default is set. *)
Record carried_over (p p' : Process) : Prop := mkCarried {
  keep_instance :
    forall k inst, _instances p !! k = Some inst ->
                   _instances p' !! k = Some inst;
  keep_registered :
    forall k, is_Some (odict_get k (_llm_classes p)) ->
              is_Some (odict_get k (_llm_classes p'));
  keep_constructed :
    forall k, k ∈ constructed p -> k ∈ constructed p';
  keep_default :
    is_Some (_default_model p) -> is_Some (_default_model p')
}.

(* ===================================================================== *)
(** * Sample inputs *)
(* ===================================================================== *)

Definition C9_system_turn : Message :=
  {| role := lit "system"; content := lit "Be brief and kind";
     name := None |}.

Definition C9_user_turn : Message :=
  {| role := lit "user"; content := lit "Hello"; name := None |}.

Definition empty_user_turn : Message :=
  {| role := lit "user"; content := []; name := None |}.

(** A backend class all of whose generation calls raise [e]. *)
Definition FailingLLM_class (e : PyException) : llm_class :=
  {| complete := fun _ _ _ => raise e;
     complete_stream := fun _ _ _ => raise e;
     chat_complete := fun _ _ _ => raise e;
     chat_complete_stream := fun _ _ _ => raise e;
     get_models := [] |}.

(** A backend class whose streams raise [e] when their first chunk is
    asked for, as an asynchronous generator that fails at its first
    statement does; its single-shot calls raise [e] at once. *)
Definition StreamFailingLLM_class (e : PyException) : llm_class :=
  {| complete := fun _ _ _ => raise e;
     complete_stream := fun _ _ _ => ret (mkGen [] (Raised e));
     chat_complete := fun _ _ _ => raise e;
     chat_complete_stream := fun _ _ _ => ret (mkGen [] (Raised e));
     get_models := [] |}.

Definition C7_stream_request : CompletionRequest :=
  {| cr_model := lit "strict"; cr_prompt := PromptStr (lit "Hello");
     cr_stream := Some true; cr_best_of := None;
     cr_params := mkGenParams None None None None None None None None None |}.

Definition C7_stream_process : Process :=
  LLMFactory.register (lit "strict")
    (StreamFailingLLM_class (mkExc ValueError (lit "prompt too long")))
    false (process_main 0).

Definition C7_request : CompletionRequest :=
  {| cr_model := lit "gpt-4"; cr_prompt := PromptStr (lit "Hello");
     cr_stream := None; cr_best_of := None;
     cr_params := mkGenParams None None None None None None None None None |}.

Definition C7_chat_request : ChatCompletionRequest :=
  {| ccr_model := lit "broken";
     ccr_messages :=
       [ {| role := lit "user"; content := lit "Hello"; name := None |} ];
     ccr_stream := None;
     ccr_params := mkGenParams None None None None None None None None None |}.

Definition C7_process : Process :=
  LLMFactory.register (lit "broken")
    (FailingLLM_class (mkExc (OtherException (lit "RuntimeError"))
                         (lit "out of memory")))
    false (process_main 0).

Definition C8_request (l : list pyval) : CompletionRequest :=
  {| cr_model := lit "mock-gpt"; cr_prompt := PromptList l;
     cr_stream := None; cr_best_of := None;
     cr_params := mkGenParams None None None None None None None None None |}.

(* ===================================================================== *)
(** * app/api/models.py *)
(* ===================================================================== *)

Definition HTTP_404_NOT_FOUND : Z := 404.

(** The dictionary [{"object": "list", "data": models}]. *)
Record ModelList : Type := mkModelList {
  list_object : str;
  list_data : list ModelInfo
}.

(** [try: body except Exception as e: h(e)] *)
Definition try_except_Exception {A} (body : M A)
    (except_Exception : PyException -> M A) : M A :=
  fun p =>
    match body p with
    | (inr x, p') => (inr x, p')
    | (inl e, p') => except_Exception e p'
    end.

(** [LLMFactory.get_available_models()] as a step of a handler. *)
Definition available_models : M (list ModelInfo) :=
  fun p => let '(models, p') := LLMFactory.get_available_models p in
           (inr models, p').

Module models.

(** The endpoints of this module stream nothing. *)
Definition no_chunk : Type := Empty_set.

Definition list_models : M (Response ModelList no_chunk) :=
  try_except_Exception
    (models_ ← available_models;
     M_ret (Returned {| list_object := lit "list"; list_data := models_ |}))
    (fun e => M_ret (create_error_response
                       (lit "Failed to retrieve model list: " ++ exc_msg e)
                       (lit "server_error")
                       HTTP_500_INTERNAL_SERVER_ERROR None None)).

(** The loop [for model in models: if model.get("id") == model_id:
    return model]: the first model with that id, if any. *)
Fixpoint first_with_id (model_id : str) (models_ : list ModelInfo)
    : option ModelInfo :=
  match models_ with
  | [] => None
  | model_ :: rest =>
      if decide (info_id model_ = model_id) then Some model_
      else first_with_id model_id rest
  end.

Definition get_model (model_id : str) : M (Response ModelInfo no_chunk) :=
  try_except_Exception
    (models_ ← available_models;
     match first_with_id model_id models_ with
     | Some model_ => M_ret (Returned model_)
     | None =>
         M_ret (create_error_response
                  (lit "Model '" ++ model_id ++ lit "' not found")
                  (lit "invalid_request_error")
                  HTTP_404_NOT_FOUND
                  (Some (lit "model")) None)
     end)
    (fun e => M_ret (create_error_response
                       (lit "Failed to retrieve model information: "
                          ++ exc_msg e)
                       (lit "server_error")
                       HTTP_500_INTERNAL_SERVER_ERROR None None)).

End models.

(* ===================================================================== *)
(** * More to state properties with *)
(* ===================================================================== *)

(** A registration that asks to become the default. *)
Definition is_default_register (o : op) : bool :=
  match o with OpRegister _ _ true => true | _ => false end.

(** The keys of the dictionary of registered classes, in order. *)
Definition registered_names (p : Process) : list str :=
  List.map fst (_llm_classes p).

(** What [get_models] gives for the instance cached under [k] in [p]. *)
Definition cached_models (p : Process) (k : str) : list ModelInfo :=
  match _instances p !! k with
  | Some inst => get_models (obj_class inst)
  | None => []
  end.

(** Object identities in the cache: each was handed out by the allocator,
    no two names share one, and a cached name is a registered one. *)
Record identity_inv (p : Process) : Prop := mkIdentityInv {
  ids_allocated :
    forall k inst, _instances p !! k = Some inst ->
                   (obj_id inst < next_obj_id p)%nat;
  ids_distinct :
    forall k1 k2 i1 i2,
      _instances p !! k1 = Some i1 -> _instances p !! k2 = Some i2 ->
      obj_id i1 = obj_id i2 -> k1 = k2;
  cached_is_registered :
    forall k inst, _instances p !! k = Some inst ->
                   is_Some (odict_get k (_llm_classes p))
}.

(** The registry holds the mock backend under ["mock-gpt"] and nothing
    else, as after [main.py] and no further registration. *)
Record only_mock (tz : Z) (p : Process) : Prop := mkOnlyMock {
  mock_registered :
    _llm_classes p = [(lit "mock-gpt", MockLLM_class tz)];
  mock_cached :
    forall k inst, _instances p !! k = Some inst ->
                   k = lit "mock-gpt" /\ obj_class inst = MockLLM_class tz
}.

(** Status and type of an error envelope go together. *)
Definition well_formed_error (status_code : Z) (err : ErrorDict) : Prop :=
  (status_code = 400 /\ err_type err = lit "invalid_request_error")
  \/ (status_code = 404 /\ err_type err = lit "invalid_request_error")
  \/ (status_code = 500 /\ err_type err = lit "server_error").

(** [all(all(isinstance(y, int) for y in x) for x in v)] for a list of
    lists. *)
Definition is_int_list (v : pyval) : bool :=
  match v with VList ys => forallb is_int ys | _ => false end.

(** [c["choices"][0]["delta"]] of a chat chunk. *)
Definition choice0_delta (c : ChatChunk) : Delta :=
  match chunk_choices c with
  | ch :: _ => delta ch
  | [] => {| delta_role := None; delta_content := None |}
  end.

(* ===================================================================== *)
(** * Facts about [split] *)
(* ===================================================================== *)

Lemma split_from_scan (w cur rest : str) :
  Forall (fun c => isspace c = false) w ->
  split_from cur (w ++ rest) = split_from (rev w ++ cur) rest.
Proof.
  revert cur. induction w as [|c w IH]; intros cur Hw; [reflexivity|].
  inversion Hw as [|? ? Hc Hw']; subst. simpl. rewrite Hc.
  rewrite IH by assumption. by rewrite <- app_assoc.
Qed.

Lemma split_from_words (s cur : str) :
  Forall (fun c => isspace c = false) cur ->
  Forall is_word (split_from cur s).
Proof.
  revert cur. induction s as [|c s IH]; intros cur Hcur; simpl.
  - destruct cur as [|a cur]; constructor; [|constructor].
    split.
    + intros E. apply (f_equal (@length _)) in E.
      rewrite length_rev in E. discriminate.
    + apply Forall_rev. exact Hcur.
  - destruct (isspace c) eqn:Hc.
    + destruct cur as [|a cur]; [apply IH; constructor|].
      constructor; [|apply IH; constructor].
      split.
      * intros E. apply (f_equal (@length _)) in E.
        rewrite length_rev in E. discriminate.
      * apply Forall_rev. exact Hcur.
    + apply IH. by constructor.
Qed.

Lemma split_words (s : str) : Forall is_word (split s).
Proof. apply split_from_words. constructor. Qed.

(** A word followed by a space, then more text: the word comes out first. *)
Lemma split_word_space (w rest : str) :
  is_word w -> split (w ++ lit " " ++ rest) = w :: split rest.
Proof.
  intros [Hne Hw]. unfold split. rewrite split_from_scan by exact Hw.
  rewrite app_nil_r. simpl.
  destruct (rev w) as [|a r] eqn:E.
  - apply (f_equal (@length _)) in E. rewrite length_rev in E.
    destruct w; [congruence | discriminate].
  - rewrite <- E, rev_involutive. reflexivity.
Qed.

(** Words written out each with a space after it split back into the
    same words. *)
Lemma split_spaced (ws : list str) :
  Forall is_word ws ->
  split (join_all (List.map (fun w => w ++ lit " ") ws)) = ws.
Proof.
  unfold join_all. induction 1 as [|w ws Hw _ IH]; [reflexivity|].
  simpl concat. rewrite <- app_assoc, split_word_space by exact Hw.
  by rewrite IH.
Qed.

Lemma split_mock_prefix (prompt : str) :
  split (lit "This is a mock response to: " ++ prompt)
  = [lit "This"; lit "is"; lit "a"; lit "mock"; lit "response"; lit "to:"]
      ++ split prompt.
Proof. reflexivity. Qed.

Lemma split_mock_chat_prefix (s : str) :
  split (lit "This is a mock chat response to: " ++ s)
  = [lit "This"; lit "is"; lit "a"; lit "mock"; lit "chat"; lit "response";
     lit "to:"] ++ split s.
Proof. reflexivity. Qed.

(* ===================================================================== *)
(** * Facts about the loops of the mock streams *)
(* ===================================================================== *)

Lemma len_app {A} (l1 l2 : list A) : len (l1 ++ l2) = len l1 + len l2.
Proof. unfold len. rewrite length_app. lia. Qed.

Lemma len_nonneg {A} (l : list A) : 0 <= len l.
Proof. unfold len. lia. Qed.

Lemma len_cons {A} (a : A) (l : list A) : len (a :: l) = 1 + len l.
Proof. unfold len. simpl length. lia. Qed.

(** The loop [for i, word in enumerate(words)] with its test
    [i == len(words) - 1]: the test holds at the last word only. *)
Lemma enumerate_is_last {A B} (G : bool -> A -> B) (total k : Z)
    (front : list A) (x : A) :
  total = k + len (front ++ [x]) ->
  List.map (fun '(i, w) => G (i =? total - 1) w)
           (enumerate_from k (front ++ [x]))
  = List.map (G false) front ++ [G true x].
Proof.
  revert k. induction front as [|a front IH]; intros k Ht.
  - simpl. replace (k =? total - 1) with true; [reflexivity|].
    symmetry. apply Z.eqb_eq. rewrite Ht. change (len ([] ++ [x])) with 1. lia.
  - assert (Hlen : total = (k + 1) + len (front ++ [x])).
    { rewrite Ht. change ((a :: front) ++ [x]) with (a :: (front ++ [x])).
      rewrite len_cons. lia. }
    simpl. replace (k =? total - 1) with false.
    + f_equal. apply IH. exact Hlen.
    + symmetry. apply Z.eqb_neq. rewrite Hlen, len_app.
      pose proof (len_nonneg front). change (len [x]) with 1. lia.
Qed.

Lemma nonempty_snoc {A} (l : list A) :
  l <> [] -> exists front x, l = front ++ [x].
Proof.
  intros H. destruct (exists_last H) as [front [x Hx]]. eauto.
Qed.

(** The same, for a loop body [F] that agrees with [G] on the test. *)
Lemma loop_shape {A B} (F : Z * A -> B) (G : bool -> A -> B)
    (words : list A) :
  words <> [] ->
  (forall i w, F (i, w) = G (i =? len words - 1) w) ->
  exists front x,
    words = front ++ [x]
    /\ List.map F (enumerate words) = List.map (G false) front ++ [G true x].
Proof.
  intros Hne HF. destruct (nonempty_snoc _ Hne) as (front & x & Hw).
  exists front, x. split; [exact Hw|].
  rewrite <- (enumerate_is_last G (len words) 0 front x)
    by (rewrite Hw; lia).
  unfold enumerate. rewrite <- Hw. apply map_ext. intros [i w]. apply HF.
Qed.

Lemma map_enumerate_from {A B} (F : Z * A -> B) (H : A -> B) (k : Z)
    (l : list A) :
  (forall i w, F (i, w) = H w) ->
  List.map F (enumerate_from k l) = List.map H l.
Proof.
  intros HF. revert k. induction l as [|a l IH]; intros k; [reflexivity|].
  simpl. by rewrite HF, IH.
Qed.

Lemma join_all_cons (x : str) (l : list str) :
  join_all (x :: l) = x ++ join_all l.
Proof. reflexivity. Qed.

Lemma join_all_snoc_empty (l : list str) : join_all (l ++ [[]]) = join_all l.
Proof. unfold join_all. rewrite concat_app. simpl. by rewrite app_nil_r. Qed.

(** What a client rebuilds from the text stream: every word of the
    response, each followed by one space. *)
Lemma streamed_text_spaced (now : clock) (prompt : str) :
  streamed_text (MockLLM.complete_stream now prompt)
  = join_all (List.map (fun w => w ++ lit " ")
                (split (lit "This is a mock response to: " ++ prompt))).
Proof.
  unfold streamed_text, MockLLM.complete_stream. cbn [gen_items].
  rewrite List.map_app. cbn [List.map choice0_text choices text].
  rewrite join_all_snoc_empty, List.map_map. f_equal.
  apply map_enumerate_from. intros i w. reflexivity.
Qed.

Lemma streamed_content_spaced (now : clock) (messages : list Message) :
  streamed_content (MockLLM.chat_complete_stream now messages)
  = join_all (List.map (fun w => w ++ lit " ")
                (split (MockLLM.response_content messages))).
Proof.
  unfold streamed_content, MockLLM.chat_complete_stream. cbn [gen_items].
  cbn [List.map]. rewrite List.map_app.
  cbn [List.map delta0_content chunk_choices delta delta_content].
  rewrite join_all_cons, app_nil_l.
  rewrite join_all_snoc_empty, List.map_map. f_equal.
  apply map_enumerate_from. intros i w. reflexivity.
Qed.

(* ===================================================================== *)
(** * C1: a stream against the single-shot result *)
(* ===================================================================== *)

(** The two texts for the prompt ["Hello"]. *)
Example streamed_text_hello :
  streamed_text (MockLLM.complete_stream (frozen_clock 0) (lit "Hello"))
  = lit "This is a mock response to: Hello "
  /\ choice0_text (MockLLM.complete (frozen_clock 0) (lit "Hello"))
     = lit "This is a mock response to: Hello".
Proof. split; reflexivity. Qed.

(** Whitespace inside the prompt is not reproduced either. *)
Example streamed_text_two_lines :
  streamed_text (MockLLM.complete_stream (frozen_clock 0)
                   ([72; 105; 10; 10; 121; 111; 117]%N))
  = lit "This is a mock response to: Hi you ".
Proof. reflexivity. Qed.

(** C1, as stated, fails: for the prompt ["Hello"] the fragments of
    [complete_stream] concatenate to the response followed by a space,
    which is not the text [complete] returns; the same holds for the chat
    operations on one user message ["Hello"]. *)
Lemma C1_stream_text_differs :
  streamed_text (MockLLM.complete_stream (frozen_clock 0) (lit "Hello"))
  <> choice0_text (MockLLM.complete (frozen_clock 0) (lit "Hello"))
  /\ streamed_content
       (MockLLM.chat_complete_stream (frozen_clock 0)
          [ {| role := lit "user"; content := lit "Hello"; name := None |} ])
     <> choice0_content
          (MockLLM.chat_complete (frozen_clock 0)
             [ {| role := lit "user"; content := lit "Hello"; name := None |} ]).
Proof. split; vm_compute; discriminate. Qed.

(** C1 (amended): for every prompt and every message list, the text that
    the fragments of the stream concatenate to has the same words, in the
    same order, as the text of the single-shot result: [split] gives the
    same list on both. *)
Theorem C1_stream_words_agree (now now' : clock) (prompt : str)
    (messages : list Message) :
  split (streamed_text (MockLLM.complete_stream now prompt))
  = split (choice0_text (MockLLM.complete now' prompt))
  /\ split (streamed_content (MockLLM.chat_complete_stream now messages))
     = split (choice0_content (MockLLM.chat_complete now' messages)).
Proof.
  split.
  - rewrite streamed_text_spaced. apply split_spaced, split_words.
  - rewrite streamed_content_spaced. apply split_spaced, split_words.
Qed.

(* ===================================================================== *)
(** * C2: finish reasons along a stream *)
(* ===================================================================== *)

Lemma split_mock_nonempty (prompt : str) :
  split (lit "This is a mock response to: " ++ prompt) <> [].
Proof. rewrite split_mock_prefix. discriminate. Qed.

Lemma response_content_nonempty (messages : list Message) :
  split (MockLLM.response_content messages) <> [].
Proof.
  unfold MockLLM.response_content. case_decide.
  - rewrite split_mock_chat_prefix. discriminate.
  - vm_compute. discriminate.
Qed.

(** The chunks of [complete_stream]: one per word, the last of them
    marked ["stop"], and then the chunk with the usage. *)
Lemma complete_stream_items (now : clock) (prompt : str) :
  exists (body : list Completion) (last_word final : Completion),
    gen_items (MockLLM.complete_stream now prompt)
      = body ++ [last_word; final]
    /\ Forall (fun c => choice0_finish c = None /\ usage c = None) body
    /\ choice0_finish last_word = STOP /\ usage last_word = None
    /\ choice0_finish final = STOP /\ usage final <> None.
Proof.
  unfold MockLLM.complete_stream. cbv zeta. cbn [gen_items].
  remember (List.map _ (enumerate _)) as word_chunks eqn:HL.
  match type of HL with
  | _ = List.map ?F (enumerate ?ws) =>
      destruct (loop_shape F
        (fun (b : bool) (word : str) =>
           {| id := lit "cmpl-" ++ str_of_int (now 0%nat);
              object := lit "text_completion";
              created := now 1%nat;
              model := MockLLM.model_name;
              choices := [ {| text := word ++ lit " "; index := 0;
                              logprobs := None;
                              finish_reason :=
                                if b then Some (lit "stop") else None |} ];
              usage := None |})
        ws (split_mock_nonempty prompt) ltac:(reflexivity))
        as (front & x & _ & Hloop)
  end.
  rewrite (eq_trans HL Hloop). clear HL Hloop word_chunks.
  rewrite <- app_assoc. cbn [app].
  eexists _, _, _. split; [reflexivity|].
  split; [|repeat split; discriminate].
  apply Forall_forall. intros c Hc. apply list_elem_of_In in Hc.
  apply in_map_iff in Hc. destruct Hc as (w & <- & _). by split.
Qed.

Lemma chat_complete_stream_items (now : clock) (messages : list Message) :
  exists (body : list ChatChunk) (last_word final : ChatChunk),
    gen_items (MockLLM.chat_complete_stream now messages)
      = body ++ [last_word; final]
    /\ Forall (fun c => delta0_finish c = None /\ chunk_usage c = None) body
    /\ delta0_finish last_word = STOP /\ chunk_usage last_word = None
    /\ delta0_finish final = STOP /\ chunk_usage final <> None.
Proof.
  unfold MockLLM.chat_complete_stream. cbv zeta. cbn [gen_items].
  remember (List.map _ (enumerate _)) as word_chunks eqn:HL.
  match type of HL with
  | _ = List.map ?F (enumerate ?ws) =>
      destruct (loop_shape F
        (fun (b : bool) (word : str) =>
           {| chunk_id := lit "chatcmpl-" ++ str_of_int (now 0%nat);
              chunk_object := lit "chat.completion.chunk";
              chunk_created := now 1%nat;
              chunk_model := MockLLM.model_name;
              chunk_choices :=
                [ {| chunk_index := 0;
                     delta := {| delta_role := None;
                                 delta_content := Some (word ++ lit " ") |};
                     chunk_finish_reason :=
                       if b then Some (lit "stop") else None |} ];
              chunk_usage := None |})
        ws (response_content_nonempty messages) ltac:(reflexivity))
        as (front & x & _ & Hloop)
  end.
  rewrite (eq_trans HL Hloop). clear HL Hloop word_chunks.
  rewrite <- app_assoc. cbn [app]. rewrite app_comm_cons.
  eexists _, _, _. split; [reflexivity|].
  split; [|repeat split; discriminate].
  constructor; [by split|].
  apply Forall_forall. intros c Hc. apply list_elem_of_In in Hc.
  apply in_map_iff in Hc. destruct Hc as (w & <- & _). by split.
Qed.

(** C2: in every stream of the mock backend the chunk before the last
    one already carries the finish reason ["stop"], and the last chunk
    carries it again.  So a further chunk is yielded after a chunk whose
    finish reason is set; the usage is on the last chunk only. *)
Theorem C2_two_chunks_say_stop (now : clock) (prompt : str)
    (messages : list Message) :
  (exists body last_word final,
     gen_items (MockLLM.complete_stream now prompt)
       = body ++ [last_word; final]
     /\ Forall (fun c => choice0_finish c = None /\ usage c = None) body
     /\ choice0_finish last_word = STOP /\ usage last_word = None
     /\ choice0_finish final = STOP /\ usage final <> None)
  /\ (exists body last_word final,
        gen_items (MockLLM.chat_complete_stream now messages)
          = body ++ [last_word; final]
        /\ Forall (fun c => delta0_finish c = None /\ chunk_usage c = None)
             body
        /\ delta0_finish last_word = STOP /\ chunk_usage last_word = None
        /\ delta0_finish final = STOP /\ chunk_usage final <> None).
Proof.
  split; [apply complete_stream_items | apply chat_complete_stream_items].
Qed.

(** The finish reasons of the eight chunks streamed for ["Hello"]. *)
Example finish_reasons_hello :
  List.map choice0_finish
    (gen_items (MockLLM.complete_stream (frozen_clock 0) (lit "Hello")))
  = [None; None; None; None; None; None; STOP; STOP].
Proof. vm_compute. reflexivity. Qed.

(** The finish reasons of the chat stream for one user turn ["Hello"]. *)
Example chat_finish_reasons_hello :
  List.map delta0_finish
    (gen_items (MockLLM.chat_complete_stream (frozen_clock 0)
       [ {| role := lit "user"; content := lit "Hello"; name := None |} ]))
  = [None; None; None; None; None; None; None; None; STOP; STOP].
Proof. vm_compute. reflexivity. Qed.

(* ===================================================================== *)
(** * C9: the generated content depends on the last message only *)
(* ===================================================================== *)

Lemma response_content_last (ms1 ms2 : list Message) (m : Message) :
  last ms1 = Some m -> last ms2 = Some m ->
  MockLLM.response_content ms1 = MockLLM.response_content ms2.
Proof.
  intros H1 H2. unfold MockLLM.response_content, MockLLM.last_message.
  by rewrite H1, H2.
Qed.

(** C9: two message lists with the same final message get the same
    choices from [chat_complete] (index, role, content and finish reason),
    whatever the earlier messages and the clock are, and the same count of
    completion tokens; the streaming operation yields chunks with the same
    choices as well.  Under one clock the two results differ in the usage
    at most: the identifier, the object kind, the creation time, the model
    and the choices agree, so that either result is the other with its
    usage replaced; likewise the two streams have the same chunks up to
    the usage they carry, and end the same way. *)
Theorem C9_content_depends_on_last_message (now1 now2 : clock)
    (ms1 ms2 : list Message) (m : Message) :
  last ms1 = Some m -> last ms2 = Some m ->
  chat_choices (MockLLM.chat_complete now1 ms1)
  = chat_choices (MockLLM.chat_complete now2 ms2)
  /\ choice0_content (MockLLM.chat_complete now1 ms1)
     = choice0_content (MockLLM.chat_complete now2 ms2)
  /\ List.map chunk_choices
       (gen_items (MockLLM.chat_complete_stream now1 ms1))
     = List.map chunk_choices
         (gen_items (MockLLM.chat_complete_stream now2 ms2))
  /\ completion_tokens (chat_usage (MockLLM.chat_complete now1 ms1))
     = completion_tokens (chat_usage (MockLLM.chat_complete now2 ms2))
  /\ (chat_id (MockLLM.chat_complete now1 ms1)
      = chat_id (MockLLM.chat_complete now1 ms2)
      /\ chat_object (MockLLM.chat_complete now1 ms1)
         = chat_object (MockLLM.chat_complete now1 ms2)
      /\ chat_created (MockLLM.chat_complete now1 ms1)
         = chat_created (MockLLM.chat_complete now1 ms2)
      /\ chat_model (MockLLM.chat_complete now1 ms1)
         = chat_model (MockLLM.chat_complete now1 ms2))
  /\ MockLLM.chat_complete now1 ms1
     = chat_with_usage (MockLLM.chat_complete now1 ms2)
         (chat_usage (MockLLM.chat_complete now1 ms1))
  /\ List.map (fun c => chunk_with_usage c None)
       (gen_items (MockLLM.chat_complete_stream now1 ms1))
     = List.map (fun c => chunk_with_usage c None)
         (gen_items (MockLLM.chat_complete_stream now1 ms2))
  /\ gen_stop (MockLLM.chat_complete_stream now1 ms1)
     = gen_stop (MockLLM.chat_complete_stream now1 ms2).
Proof.
  intros H1 H2. pose proof (response_content_last ms1 ms2 m H1 H2) as E.
  unfold choice0_content, chat_with_usage, MockLLM.chat_complete,
    MockLLM.chat_complete_stream, _create_chat_completion_response.
  cbn [chat_choices chat_usage chat_id chat_object chat_created chat_model
       completion_tokens gen_items gen_stop].
  rewrite E.
  do 2 (split; [reflexivity|]). split.
  { cbn [List.map chunk_choices]. f_equal.
    rewrite !List.map_app. cbn [List.map chunk_choices]. f_equal.
    rewrite !List.map_map. apply map_ext. intros [i w]. reflexivity. }
  split; [reflexivity|].
  split; [do 3 (split; [reflexivity|]); reflexivity|].
  split; [reflexivity|]. split; [|reflexivity].
  cbn [List.map]. f_equal.
  rewrite !List.map_app. cbn [List.map]. unfold chunk_with_usage.
  cbn [chunk_id chunk_object chunk_created chunk_model chunk_choices].
  reflexivity.
Qed.

Lemma C9_content_depends_on_last_message_witness :
  chat_choices (MockLLM.chat_complete (frozen_clock 1)
                  [C9_system_turn; C9_user_turn])
  = chat_choices (MockLLM.chat_complete (frozen_clock 2) [C9_user_turn])
  /\ choice0_content (MockLLM.chat_complete (frozen_clock 1)
                        [C9_system_turn; C9_user_turn])
     = choice0_content (MockLLM.chat_complete (frozen_clock 2) [C9_user_turn])
  /\ List.map chunk_choices
       (gen_items (MockLLM.chat_complete_stream (frozen_clock 1)
                     [C9_system_turn; C9_user_turn]))
     = List.map chunk_choices
         (gen_items (MockLLM.chat_complete_stream (frozen_clock 2)
                       [C9_user_turn]))
  /\ MockLLM.chat_complete (frozen_clock 1) [C9_system_turn; C9_user_turn]
     = chat_with_usage
         (MockLLM.chat_complete (frozen_clock 1) [C9_user_turn])
         (chat_usage (MockLLM.chat_complete (frozen_clock 1)
                        [C9_system_turn; C9_user_turn]))
  /\ List.map (fun c => chunk_with_usage c None)
       (gen_items (MockLLM.chat_complete_stream (frozen_clock 1)
                     [C9_system_turn; C9_user_turn]))
     = List.map (fun c => chunk_with_usage c None)
         (gen_items (MockLLM.chat_complete_stream (frozen_clock 1)
                       [C9_user_turn])).
Proof.
  destruct (C9_content_depends_on_last_message (frozen_clock 1)
              (frozen_clock 2) [C9_system_turn; C9_user_turn] [C9_user_turn]
              C9_user_turn eq_refl eq_refl)
    as (Hchoices & Hcontent & Hchunks & _ & _ & Hresult & Hstream & _).
  exact (conj Hchoices (conj Hcontent (conj Hchunks (conj Hresult Hstream)))).
Defined.

(** The usage does differ between these two runs. *)
Example usage_depends_on_history :
  prompt_tokens (chat_usage (MockLLM.chat_complete (frozen_clock 1)
                               [C9_system_turn; C9_user_turn])) = 5
  /\ prompt_tokens (chat_usage (MockLLM.chat_complete (frozen_clock 2)
                                  [C9_user_turn])) = 1.
Proof. split; reflexivity. Qed.

(* ===================================================================== *)
(** * C3: an empty message list *)
(* ===================================================================== *)

(** The backend on the empty list: the result of one empty user turn. *)
Lemma chat_complete_empty (now : clock) :
  MockLLM.chat_complete now [] = MockLLM.chat_complete now [empty_user_turn]
  /\ choice0_content (MockLLM.chat_complete now [])
     = lit "This is a mock chat response to: ".
Proof. split; reflexivity. Qed.

(** C3, as stated, fails at the endpoint: a request for the model
    ["mock-gpt"] with an empty message list is refused when the request
    object is built, so it gets no chat completion result and the
    backend is not called. *)
Lemma C3_empty_messages_rejected :
  let raw := {| ccr_model := lit "mock-gpt"; ccr_messages := [];
                ccr_stream := None;
                ccr_params := mkGenParams None None None None None None
                                None None None |} in
  let p := process_main 0 in
  fst (post_chat_completions (frozen_clock 0) raw p)
    = inr (RequestValidationError [mkExc ValueError MSG_MESSAGES_EMPTY])
  /\ (forall r, fst (post_chat_completions (frozen_clock 0) raw p)
                <> inr (Handled (Returned r)))
  /\ calls (snd (post_chat_completions (frozen_clock 0) raw p)) = [].
Proof.
  cbv zeta. split; [reflexivity|]. split; [|reflexivity].
  intros r. unfold post_chat_completions. cbn. discriminate.
Qed.

(** C3 (amended): the mock backend does not fail on an empty message
    list, which it treats as one user turn with empty content: both of
    its chat operations return what they return for that single turn.
    The endpoint [POST /chat/completions] does not crash on such a
    request either, but refuses it: [validate_messages] raises, the
    handler does not run, and the process state is left as it was. *)
Theorem C3_empty_messages (now : clock) (tz : Z) (params : GenParams)
    (model_ : str) (stream_ : option bool) (p : Process) :
  chat_complete (MockLLM_class tz) now params []
    = ret (MockLLM.chat_complete now [empty_user_turn])
  /\ chat_complete_stream (MockLLM_class tz) now params []
     = ret (MockLLM.chat_complete_stream now [empty_user_turn])
  /\ validate_messages [] = raise (mkExc ValueError MSG_MESSAGES_EMPTY)
  /\ post_chat_completions now
       {| ccr_model := model_; ccr_messages := []; ccr_stream := stream_;
          ccr_params := params |} p
     = (inr (RequestValidationError [mkExc ValueError MSG_MESSAGES_EMPTY]), p).
Proof. repeat split. Qed.

(* ===================================================================== *)
(** * How the operations change the process state *)
(* ===================================================================== *)

Lemma odict_get_set_eq {V} (k : str) (v : V) (d : odict V) :
  odict_get k (odict_set k v d) = Some v.
Proof.
  induction d as [|[k' v'] d IH]; simpl.
  - by rewrite decide_True.
  - destruct (decide (k' = k)) as [->|Hne]; simpl.
    + by rewrite decide_True.
    + by rewrite decide_False.
Qed.

Lemma odict_get_set_ne {V} (k k' : str) (v : V) (d : odict V) :
  k <> k' -> odict_get k' (odict_set k v d) = odict_get k' d.
Proof.
  intros Hne. induction d as [|[k0 v0] d IH]; simpl.
  - by rewrite decide_False.
  - destruct (decide (k0 = k)) as [->|Hk0]; simpl.
    + by rewrite !decide_False.
    + destruct (decide (k0 = k')); [reflexivity | exact IH].
Qed.

Lemma odict_get_set_is_Some {V} (k k' : str) (v : V) (d : odict V) :
  is_Some (odict_get k' d) -> is_Some (odict_get k' (odict_set k v d)).
Proof.
  intros H. destruct (decide (k = k')) as [->|Hne].
  - rewrite odict_get_set_eq. eauto.
  - by rewrite odict_get_set_ne.
Qed.

Lemma internal_ret {A} (x : A) : internal (M_ret x).
Proof. intros p. apply rtc_refl. Qed.

Lemma internal_raise {A} (e : PyException) : internal (@M_raise A e).
Proof. intros p. apply rtc_refl. Qed.

Lemma internal_lift {A} (r : result A) : internal (lift r).
Proof. intros p. apply rtc_refl. Qed.

Lemma internal_log (c : BackendCall) : internal (log_call c).
Proof. intros p. apply rtc_once. constructor. Qed.

Lemma internal_bind {A B} (m : M A) (k : A -> M B) :
  internal m -> (forall x, internal (k x)) -> internal (m ≫= k).
Proof.
  intros Hm Hk p. unfold mbind, M_mbind, M_bind.
  specialize (Hm p). destruct (m p) as [[e|x] p']; simpl in *; [exact Hm|].
  etransitivity; [exact Hm | apply Hk].
Qed.

Lemma internal_try_except {A} (body : M A) (h1 h2 : PyException -> M A) :
  internal body -> (forall e, internal (h1 e)) -> (forall e, internal (h2 e)) ->
  internal (try_except body h1 h2).
Proof.
  intros Hb H1 H2 p. unfold try_except.
  specialize (Hb p). destruct (body p) as [[e|x] p']; simpl in *; [|exact Hb].
  destruct (isinstance_ValueError e);
    (etransitivity; [exact Hb | apply H1 || apply H2]).
Qed.

Lemma internal_default_if_none (model_name : option str) :
  internal (LLMFactory.default_if_none model_name).
Proof.
  intros p. destruct model_name as [k|]; simpl; [apply rtc_refl|].
  destruct (_default_model p); apply rtc_refl.
Qed.

(** [cached_or_new], case by case. *)
Lemma cached_or_new_cases (k : str) (p : Process) :
  (exists inst, _instances p !! k = Some inst
                /\ LLMFactory.cached_or_new k p = (inr inst, p))
  \/ (exists c, _instances p !! k = None
                /\ odict_get k (_llm_classes p) = Some c
                /\ LLMFactory.cached_or_new k p
                   = (inr {| obj_id := next_obj_id p; obj_class := c |},
                      LLMFactory.instantiate k c p))
  \/ (_instances p !! k = None
      /\ odict_get k (_llm_classes p) = None
      /\ LLMFactory.cached_or_new k p
         = (inl (mkExc ValueError (lit "Model '" ++ k ++ lit "' not found")),
            p)).
Proof.
  unfold LLMFactory.cached_or_new.
  destruct (_instances p !! k) as [inst|] eqn:Hi; [left; eauto|].
  right. destruct (odict_get k (_llm_classes p)) as [c|] eqn:Hc.
  - left. exists c. repeat split.
    cbn [LLMFactory.instantiate _instances]. by rewrite lookup_insert_eq.
  - right. by repeat split.
Qed.

Lemma internal_cached_or_new (k : str) : internal (LLMFactory.cached_or_new k).
Proof.
  intros p.
  destruct (cached_or_new_cases k p)
    as [(inst & _ & ->) | [(c & Hi & Hc & ->) | (_ & _ & ->)]]; simpl.
  - apply rtc_refl.
  - apply rtc_once. by constructor.
  - apply rtc_refl.
Qed.

Lemma internal_get_instance (model_name : option str) :
  internal (LLMFactory.get_instance model_name).
Proof.
  apply internal_bind; [apply internal_default_if_none|].
  apply internal_cached_or_new.
Qed.

Lemma collect_models_internal (names : list str) (models : list ModelInfo)
    (p : Process) :
  rtc istep p (snd (LLMFactory.collect_models names models p)).
Proof.
  revert models p. induction names as [|k names IH]; intros models p.
  - apply rtc_refl.
  - cbn [LLMFactory.collect_models]. cbv zeta.
    etransitivity; [|apply IH].
    destruct (_instances p !! k) eqn:Hi; [apply rtc_refl|].
    destruct (odict_get k (_llm_classes p)) eqn:Hc; [|apply rtc_refl].
    apply rtc_once. by constructor.
Qed.

Lemma internal_generate now request llm prompt :
  internal (completions.generate now request llm prompt).
Proof.
  unfold completions.generate.
  destruct (stream_requested (cr_stream request));
    (apply internal_bind; [apply internal_log|]; intros _;
     apply internal_bind; [apply internal_lift|]; intros ?;
     apply internal_ret).
Qed.

Lemma internal_create_completion now request :
  internal (completions.create_completion now request).
Proof.
  apply internal_try_except; try (intros e; apply internal_ret).
  apply internal_bind; [apply internal_get_instance|]. intros llm.
  destruct (cr_prompt request) as [s|l]; [apply internal_generate|].
  destruct (all_str l); [|apply internal_ret].
  apply internal_bind; [apply internal_lift|]. intros ?.
  apply internal_generate.
Qed.

Lemma internal_create_chat_completion now request :
  internal (chat_completions.create_chat_completion now request).
Proof.
  apply internal_try_except; try (intros e; apply internal_ret).
  apply internal_bind; [apply internal_get_instance|]. intros llm.
  destruct (stream_requested (ccr_stream request));
    (apply internal_bind; [apply internal_log|]; intros _;
     apply internal_bind; [apply internal_lift|]; intros ?;
     apply internal_ret).
Qed.

Lemma do_op_internal (o : op) (p : Process) :
  is_register o = false -> rtc istep p (do_op o p).
Proof.
  destruct o as [k c b | k | | now raw | now raw]; simpl; intros Hr;
    try discriminate.
  - apply internal_get_instance.
  - apply collect_models_internal.
  - unfold post_completions.
    destruct (CompletionRequest_validate raw) as [errs|request];
      [apply rtc_refl|].
    pose proof (internal_create_completion now request p) as H.
    destruct (completions.create_completion now request p) as [[e|r] p'];
      exact H.
  - unfold post_chat_completions.
    destruct (ChatCompletionRequest_validate raw) as [errs|request];
      [apply rtc_refl|].
    pose proof (internal_create_chat_completion now request p) as H.
    destruct (chat_completions.create_chat_completion now request p)
      as [[e|r] p']; exact H.
Qed.

Lemma istep_pstep (p p' : Process) : rtc istep p p' -> rtc pstep p p'.
Proof.
  induction 1 as [|p q r Hpq _ IH]; [apply rtc_refl|].
  eapply rtc_l; [apply pstep_internal; exact Hpq | exact IH].
Qed.

Lemma do_op_pstep (o : op) (p : Process) : rtc pstep p (do_op o p).
Proof.
  destruct (is_register o) eqn:Hr.
  - destruct o; try discriminate. simpl. apply rtc_once. constructor.
  - apply istep_pstep, do_op_internal, Hr.
Qed.

Lemma run_app (ops1 ops2 : list op) (p : Process) :
  run (ops1 ++ ops2) p = run ops2 (run ops1 p).
Proof. unfold run. apply fold_left_app. Qed.

Lemma run_pstep (ops : list op) (p : Process) : rtc pstep p (run ops p).
Proof.
  revert p. induction ops as [|o ops IH]; intros p; [apply rtc_refl|].
  change (run (o :: ops) p) with (run ops (do_op o p)).
  etransitivity; [apply do_op_pstep | apply IH].
Qed.

Lemma run_internal (ops : list op) (p : Process) :
  forallb (fun o => negb (is_register o)) ops = true ->
  rtc istep p (run ops p).
Proof.
  revert p. induction ops as [|o ops IH]; intros p H; [apply rtc_refl|].
  simpl in H. apply andb_true_iff in H as [Ho Hops].
  change (run (o :: ops) p) with (run ops (do_op o p)).
  etransitivity; [apply do_op_internal | apply IH; exact Hops].
  by destruct (is_register o).
Qed.

(* ===================================================================== *)
(** * The invariant of the registry and what no step undoes *)
(* ===================================================================== *)

Lemma registry_inv_start : registry_inv process_start.
Proof.
  split; simpl.
  - constructor.
  - intros k. rewrite lookup_empty. split; [intros H; inversion H|].
    intros [? ?]. discriminate.
  - discriminate.
Qed.

Lemma registry_inv_pstep (p p' : Process) :
  pstep p p' -> registry_inv p -> registry_inv p'.
Proof.
  intros Hstep [Hnd Hc Hd].
  destruct Hstep as [k c b p | p p' Hin];
    [|destruct Hin as [k c p Hi Hk | c p]].
  - split; cbn [LLMFactory.register constructed _instances _default_model
                _llm_classes]; [exact Hnd | exact Hc |].
    intros d Hdef.
    destruct (b || negb (bool_decide (is_Some (_default_model p)))).
    + injection Hdef as <-. rewrite odict_get_set_eq. eauto.
    + apply odict_get_set_is_Some, Hd, Hdef.
  - assert (Hfresh : k ∉ constructed p).
    { intros Hin. apply Hc in Hin. rewrite Hi in Hin.
      destruct Hin. discriminate. }
    split; cbn [LLMFactory.instantiate constructed _instances _default_model
                _llm_classes]; [| |exact Hd].
    + apply NoDup_app. split; [exact Hnd|]. split.
      * intros x Hx Hx'. apply list_elem_of_singleton in Hx'. by subst.
      * apply NoDup_singleton.
    + intros k'. rewrite elem_of_app, list_elem_of_singleton, Hc.
      destruct (decide (k = k')) as [->|Hne].
      * rewrite lookup_insert_eq. split; eauto.
      * rewrite lookup_insert_ne by exact Hne. split; [|by left].
        intros [H|H]; [exact H | congruence].
  - split; simpl; assumption.
Qed.

Lemma registry_inv_rtc (p p' : Process) :
  rtc pstep p p' -> registry_inv p -> registry_inv p'.
Proof.
  induction 1 as [|p q r Hpq _ IH]; [auto|].
  intros Hp. apply IH. eapply registry_inv_pstep; eauto.
Qed.

Lemma registry_inv_run (ops : list op) : registry_inv (run ops process_start).
Proof.
  eapply registry_inv_rtc; [apply run_pstep | apply registry_inv_start].
Qed.

Lemma carried_over_pstep (p p' : Process) :
  pstep p p' -> registry_inv p -> carried_over p p'.
Proof.
  intros Hstep [Hnd Hc Hd].
  destruct Hstep as [k c b p | p p' Hin];
    [|destruct Hin as [k c p Hi Hk | c p]].
  - split; cbn [LLMFactory.register constructed _instances _default_model
                _llm_classes]; auto.
    + intros k'. apply odict_get_set_is_Some.
    + intros Hdef.
      destruct (b || negb (bool_decide (is_Some (_default_model p)))); eauto.
  - split; cbn [LLMFactory.instantiate constructed _instances _default_model
                _llm_classes]; auto.
    + intros k' inst Hk'. rewrite lookup_insert_ne; [exact Hk'|].
      intros ->. congruence.
    + intros k' Hin. apply elem_of_app. by left.
  - split; simpl; auto.
Qed.

Lemma carried_over_rtc (p p' : Process) :
  rtc pstep p p' -> registry_inv p -> carried_over p p'.
Proof.
  induction 1 as [p|p q r Hpq Hqr IH]; intros Hp.
  - split; auto.
  - pose proof (carried_over_pstep _ _ Hpq Hp) as [H1 H2 H3 H4].
    destruct (IH (registry_inv_pstep _ _ Hpq Hp)) as [G1 G2 G3 G4].
    split; eauto.
Qed.

(** Steps other than a registration leave the registrations alone. *)
Lemma istep_registrations (p p' : Process) :
  rtc istep p p' ->
  _llm_classes p' = _llm_classes p /\ _default_model p' = _default_model p.
Proof.
  induction 1 as [|p q r Hpq _ [IH1 IH2]]; [by split|].
  rewrite IH1, IH2. destruct Hpq; by split.
Qed.

Lemma filter_absent (k : str) (l : list str) :
  k ∉ l -> filter (fun k' => k' = k) l = [].
Proof.
  induction l as [|x l IH]; intros Hk; [reflexivity|].
  rewrite filter_cons. destruct (decide (x = k)) as [->|Hne].
  - exfalso. apply Hk. by left.
  - apply IH. intros Hin. apply Hk. by right.
Qed.

Lemma times_constructed_le_1 (k : str) (p : Process) :
  registry_inv p -> (times_constructed k p <= 1)%nat.
Proof.
  intros [Hnd _ _]. unfold times_constructed.
  induction Hnd as [|x l Hx Hnd IH]; [simpl; lia|].
  rewrite filter_cons. destruct (decide (x = k)) as [->|Hne]; [|exact IH].
  rewrite filter_absent by exact Hx. simpl. lia.
Qed.

Lemma times_constructed_ge_1 (k : str) (p : Process) :
  k ∈ constructed p -> (1 <= times_constructed k p)%nat.
Proof.
  unfold times_constructed. intros Hin.
  assert (Hf : k ∈ filter (fun k' => k' = k) (constructed p)).
  { apply list_elem_of_filter. by split. }
  destruct (filter _ (constructed p)); [inversion Hf | simpl; lia].
Qed.

(* ===================================================================== *)
(** * C4 and C6: resolution by the registry *)
(* ===================================================================== *)

(** A step other than a registration with [is_default=True] keeps the
    default model. *)
Lemma do_op_keeps_default (o : op) (p : Process) (d : str) :
  is_default_register o = false ->
  _default_model p = Some d -> _default_model (do_op o p) = Some d.
Proof.
  intros Ho Hd. destruct (is_register o) eqn:Hr.
  - destruct o as [k c b| | | |]; try discriminate.
    destruct b; [discriminate|].
    cbn [do_op LLMFactory.register _default_model]. rewrite Hd.
    rewrite bool_decide_eq_true_2 by eauto. reflexivity.
  - destruct (istep_registrations _ _ (do_op_internal o p Hr)) as [_ ->].
    exact Hd.
Qed.

Lemma run_keeps_default (ops : list op) (p : Process) (d : str) :
  forallb (fun o => negb (is_default_register o)) ops = true ->
  _default_model p = Some d -> _default_model (run ops p) = Some d.
Proof.
  revert p. induction ops as [|o ops IH]; intros p H Hd; [exact Hd|].
  simpl in H. apply andb_true_iff in H as [Ho Hops].
  change (run (o :: ops) p) with (run ops (do_op o p)).
  apply IH; [exact Hops|]. apply do_op_keeps_default; [|exact Hd].
  by destruct (is_default_register o).
Qed.

Lemma get_instance_named (k : str) (p : Process) :
  LLMFactory.get_instance (Some k) p = LLMFactory.cached_or_new k p.
Proof. reflexivity. Qed.

Lemma get_instance_default (d : str) (p : Process) :
  _default_model p = Some d ->
  LLMFactory.get_instance None p = LLMFactory.cached_or_new d p.
Proof.
  intros Hd. unfold LLMFactory.get_instance, mbind, M_mbind, M_bind.
  simpl. by rewrite Hd.
Qed.

Lemma get_instance_no_default (p : Process) :
  _default_model p = None ->
  LLMFactory.get_instance None p
  = (inl (mkExc ValueError (lit "No default model registered")), p).
Proof.
  intros Hd. unfold LLMFactory.get_instance, mbind, M_mbind, M_bind.
  simpl. by rewrite Hd.
Qed.

(** Resolving a registered name succeeds, and leaves the instance in the
    cache. *)
Lemma cached_or_new_registered (k : str) (p : Process) :
  is_Some (odict_get k (_llm_classes p)) ->
  exists inst p1,
    LLMFactory.cached_or_new k p = (inr inst, p1)
    /\ _instances p1 !! k = Some inst
    /\ rtc pstep p p1.
Proof.
  intros [c Hc].
  destruct (cached_or_new_cases k p)
    as [(inst & Hi & E) | [(c' & Hi & Hc' & E) | (_ & Hnone & _)]].
  - exists inst, p. repeat split; [exact E | exact Hi | apply rtc_refl].
  - eexists _, _. split; [exact E|]. split.
    + cbn [LLMFactory.instantiate _instances]. by rewrite lookup_insert_eq.
    + apply rtc_once, pstep_internal. by constructor.
  - congruence.
Qed.

Lemma cached_or_new_cached (k : str) (inst : Instance) (p : Process) :
  _instances p !! k = Some inst ->
  LLMFactory.cached_or_new k p = (inr inst, p).
Proof. intros H. unfold LLMFactory.cached_or_new. by rewrite H. Qed.

(** After any history in which [model_name] was registered. *)
Lemma registered_after (ops1 ops2 : list op) (model_name : str)
    (c : llm_class) (is_default : bool) :
  let p := run (ops1 ++ OpRegister model_name c is_default :: ops2)
             process_start in
  registry_inv p
  /\ is_Some (odict_get model_name (_llm_classes p))
  /\ is_Some (_default_model p).
Proof.
  cbv zeta. split; [apply registry_inv_run|].
  rewrite run_app.
  change (run (OpRegister model_name c is_default :: ops2)
            (run ops1 process_start))
    with (run ops2 (LLMFactory.register model_name c is_default
                      (run ops1 process_start))).
  set (q := LLMFactory.register model_name c is_default
              (run ops1 process_start)).
  assert (Hq : registry_inv q).
  { eapply registry_inv_pstep; [constructor | apply registry_inv_run]. }
  destruct (carried_over_rtc q (run ops2 q) (run_pstep ops2 q) Hq)
    as [_ Hreg _ Hdef].
  split.
  - apply Hreg. subst q. cbn [LLMFactory.register _llm_classes].
    rewrite odict_get_set_eq. eauto.
  - apply Hdef. subst q. cbn [LLMFactory.register _default_model].
    destruct is_default; simpl; [eauto|].
    destruct (_default_model (run ops1 process_start)) eqn:E; simpl; eauto.
Qed.

(** C4: in any history of the process, once a model name has been
    registered, [get_instance] on it returns an instance, and every later
    call returns that very instance (same identity, same class) without
    changing the state: the instance stays in the cache and the class
    registered under the name has been instantiated exactly once.  No
    name is ever instantiated twice. *)
Theorem C4_get_instance_singleton (ops1 ops2 : list op) (model_name : str)
    (c : llm_class) (is_default : bool) :
  let p := run (ops1 ++ OpRegister model_name c is_default :: ops2)
             process_start in
  (exists inst p1,
     LLMFactory.get_instance (Some model_name) p = (inr inst, p1)
     /\ forall ops3,
          LLMFactory.get_instance (Some model_name) (run ops3 p1)
            = (inr inst, run ops3 p1)
          /\ _instances (run ops3 p1) !! model_name = Some inst
          /\ times_constructed model_name (run ops3 p1) = 1%nat)
  /\ (forall ops k,
        (times_constructed k (run ops process_start) <= 1)%nat).
Proof.
  cbv zeta. split.
  - destruct (registered_after ops1 ops2 model_name c is_default)
      as (Hinv & Hreg & _).
    set (p := run _ process_start) in *.
    destruct (cached_or_new_registered model_name p Hreg)
      as (inst & p1 & E & Hi & Hsteps).
    exists inst, p1. split; [exact E|]. intros ops3.
    assert (Hinv1 : registry_inv p1) by (eapply registry_inv_rtc; eauto).
    assert (Hinv3 : registry_inv (run ops3 p1)).
    { eapply registry_inv_rtc; [apply run_pstep | exact Hinv1]. }
    destruct (carried_over_rtc p1 (run ops3 p1) (run_pstep ops3 p1) Hinv1)
      as [Hkeep _ Hcons _].
    split; [|split].
    + rewrite get_instance_named. apply cached_or_new_cached, Hkeep, Hi.
    + apply Hkeep, Hi.
    + apply Nat.le_antisymm; [by apply times_constructed_le_1|].
      apply times_constructed_ge_1, Hcons.
      apply (inv_constructed _ Hinv1). eauto.
  - intros ops k. apply times_constructed_le_1, registry_inv_run.
Qed.

(** C6: in any history with a registration, a default model [d] is set,
    and [get_instance(None)] is [get_instance(d)]: on the same state the
    two calls have the same result and leave the same state, and the
    result is an instance.  Made one after the other in one run, in
    either order, the two calls return one and the same object: after
    [get_instance(None)] has returned [inst], both [get_instance(d)] and
    [get_instance(None)] return [inst] and leave the state as it is, and
    they still do after any further steps of the process that do not
    register a model with [is_default=True].  In a history without any
    registration, [get_instance(None)] raises the [ValueError]
    "No default model registered". *)
Theorem C6_default_resolution (ops1 ops2 ops : list op) (model_name : str)
    (c : llm_class) (is_default : bool) :
  (let p := run (ops1 ++ OpRegister model_name c is_default :: ops2)
              process_start in
   exists d inst p1,
     _default_model p = Some d
     /\ LLMFactory.get_instance None p = LLMFactory.get_instance (Some d) p
     /\ LLMFactory.get_instance None p = (inr inst, p1)
     /\ LLMFactory.get_instance (Some d) p1 = (inr inst, p1)
     /\ LLMFactory.get_instance None p1 = (inr inst, p1)
     /\ forall ops3,
          forallb (fun o => negb (is_default_register o)) ops3 = true ->
          LLMFactory.get_instance None (run ops3 p1)
            = (inr inst, run ops3 p1)
          /\ LLMFactory.get_instance (Some d) (run ops3 p1)
             = (inr inst, run ops3 p1))
  /\ (forallb (fun o => negb (is_register o)) ops = true ->
      LLMFactory.get_instance None (run ops process_start)
      = (inl (mkExc ValueError (lit "No default model registered")),
         run ops process_start)).
Proof.
  split.
  - cbv zeta.
    destruct (registered_after ops1 ops2 model_name c is_default)
      as (Hinv & _ & [d Hd]).
    set (p := run _ process_start) in *.
    destruct (cached_or_new_registered d p (inv_default _ Hinv d Hd))
      as (inst & p1 & E & Hi & Hsteps).
    assert (Hd1 : _default_model p1 = Some d).
    { pose proof (internal_cached_or_new d p) as Hint.
      rewrite E in Hint. cbn [snd] in Hint.
      destruct (istep_registrations _ _ Hint) as [_ ->]. exact Hd. }
    assert (Hinv1 : registry_inv p1) by (eapply registry_inv_rtc; eauto).
    assert (Hlater : forall ops3,
              forallb (fun o => negb (is_default_register o)) ops3 = true ->
              LLMFactory.get_instance None (run ops3 p1)
                = (inr inst, run ops3 p1)
              /\ LLMFactory.get_instance (Some d) (run ops3 p1)
                 = (inr inst, run ops3 p1)).
    { intros ops3 Hops3.
      destruct (carried_over_rtc p1 (run ops3 p1) (run_pstep ops3 p1) Hinv1)
        as [Hkeep _ _ _].
      pose proof (cached_or_new_cached d inst _ (Hkeep _ _ Hi)) as Hc.
      split.
      - rewrite (get_instance_default d _ (run_keeps_default _ _ _ Hops3 Hd1)).
        exact Hc.
      - rewrite get_instance_named. exact Hc. }
    exists d, inst, p1. rewrite (get_instance_default d p Hd).
    split; [exact Hd|]. split; [reflexivity|]. split; [exact E|].
    destruct (Hlater [] eq_refl) as [HN HS].
    split; [exact HS|]. split; [exact HN|]. exact Hlater.
  - intros Hops. apply get_instance_no_default.
    destruct (istep_registrations _ _ (run_internal ops process_start Hops))
      as [_ ->]. reflexivity.
Qed.

Lemma C6_default_resolution_witness :
  forallb (fun o => negb (is_register o))
    [OpGetInstance (Some (lit "gpt-4")); OpGetAvailableModels] = true
  /\ (let p := run ([] ++ OpRegister (lit "mock-gpt") (MockLLM_class 0) true
                       :: [OpGetInstance None]) process_start in
      exists d inst p1,
        _default_model p = Some d
        /\ LLMFactory.get_instance None p
           = LLMFactory.get_instance (Some d) p
        /\ LLMFactory.get_instance None p = (inr inst, p1)
        /\ LLMFactory.get_instance (Some d) p1 = (inr inst, p1)
        /\ LLMFactory.get_instance None p1 = (inr inst, p1)
        /\ forall ops3,
             forallb (fun o => negb (is_default_register o)) ops3 = true ->
             LLMFactory.get_instance None (run ops3 p1)
               = (inr inst, run ops3 p1)
             /\ LLMFactory.get_instance (Some d) (run ops3 p1)
                = (inr inst, run ops3 p1))
  /\ LLMFactory.get_instance None
       (run [OpGetInstance (Some (lit "gpt-4")); OpGetAvailableModels]
          process_start)
     = (inl (mkExc ValueError (lit "No default model registered")),
        run [OpGetInstance (Some (lit "gpt-4")); OpGetAvailableModels]
          process_start).
Proof.
  pose proof (C6_default_resolution [] [OpGetInstance None]
                [OpGetInstance (Some (lit "gpt-4")); OpGetAvailableModels]
                (lit "mock-gpt") (MockLLM_class 0) true) as [H1 H2].
  split; [reflexivity|]. split; [exact H1 | apply H2; reflexivity].
Defined.

(** The two calls on the process of [main.py], one after the other and
    in either order: one object, built once. *)
Example default_and_named_share_the_instance :
  let p := process_main 0 in
  exists inst p1,
    LLMFactory.get_instance None p = (inr inst, p1)
    /\ LLMFactory.get_instance (Some (lit "mock-gpt")) p1 = (inr inst, p1)
    /\ times_constructed (lit "mock-gpt") p1 = 1%nat.
Proof. cbv zeta. eexists _, _. repeat split; vm_compute; reflexivity. Qed.

(* ===================================================================== *)
(** * C5: the frames of a streaming response *)
(* ===================================================================== *)

Lemma stream_frames_app {C} (items : list C) (stop_ : gen_end) :
  stream_frames items stop_
  = List.map DataChunk items ++ stream_frames [] stop_.
Proof.
  induction items as [|c items IH]; [reflexivity|].
  simpl. by rewrite IH.
Qed.

Lemma filter_is_done_chunks {C} (items : list C) :
  filter (fun f => is_done f = true) (List.map (@DataChunk C) items) = [].
Proof.
  induction items as [|c items IH]; [reflexivity|].
  cbn [List.map]. rewrite filter_cons_False by discriminate. exact IH.
Qed.

Lemma filter_is_error_chunks {C} (items : list C) :
  filter (fun f => is_error f = true) (List.map (@DataChunk C) items) = [].
Proof.
  induction items as [|c items IH]; [reflexivity|].
  cbn [List.map]. rewrite filter_cons_False by discriminate. exact IH.
Qed.

(** C5: the response [create_stream_response] returns for a generator
    that yields [items] and is then exhausted is a [StreamingResponse] of
    media type ["text/event-stream"] whose frames are one data frame per
    item and the [DONE] sentinel: [DONE] is last, occurs once, and there
    is no error event.  For a generator that yields [items] and then
    raises [e], the response is a [StreamingResponse] of the same media
    type whose frames are one data frame per item, one error event with
    the message of [e] and the type ["server_error"], and the sentinel:
    [DONE] is last and occurs once, the error event occurs once and comes
    just before it.  The frames are those of the inner
    [stream_generator]. *)
Theorem C5_stream_ends_with_done (R C : Type) (items : list C)
    (e : PyException) :
  let ok : Response R C := create_stream_response (mkGen items Exhausted) in
  let failed : Response R C :=
    create_stream_response (mkGen items (Raised e)) in
  (ok = StreamingResponse (List.map DataChunk items ++ [DONE])
          (lit "text/event-stream")
   /\ response_frames ok = stream_generator (mkGen items Exhausted)
   /\ response_frames ok = List.map DataChunk items ++ [DONE]
   /\ last (response_frames ok) = Some DONE
   /\ length (filter (fun f => is_done f = true) (response_frames ok))
      = 1%nat
   /\ length (filter (fun f => is_error f = true) (response_frames ok))
      = 0%nat)
  /\ (failed = StreamingResponse
                 (List.map DataChunk items
                    ++ [DataError (server_error_data e); DONE])
                 (lit "text/event-stream")
      /\ response_frames failed = stream_generator (mkGen items (Raised e))
      /\ response_frames failed
         = List.map DataChunk items
             ++ [DataError (server_error_data e); DONE]
      /\ last (response_frames failed) = Some DONE
      /\ length (filter (fun f => is_done f = true) (response_frames failed))
         = 1%nat
      /\ length (filter (fun f => is_error f = true)
                   (response_frames failed)) = 1%nat).
Proof.
  cbv zeta. unfold create_stream_response. cbn [response_frames].
  unfold stream_generator. cbn [gen_items gen_stop].
  rewrite !(stream_frames_app items). cbn [stream_frames].
  fold (server_error_data e).
  split; (do 3 (split; [reflexivity|])).
  - rewrite last_app. cbn [last]. split; [reflexivity|].
    rewrite !filter_app, filter_is_done_chunks, filter_is_error_chunks.
    split; reflexivity.
  - rewrite last_app. cbn [last]. split; [reflexivity|].
    rewrite !filter_app, filter_is_done_chunks, filter_is_error_chunks.
    split; reflexivity.
Qed.

(* ===================================================================== *)
(** * C7: what the handlers make of a failure *)
(* ===================================================================== *)

(** The guarded selection [prompt[0] if prompt else ""] always returns. *)
Lemma first_or_empty_returns (strs : list str) :
  (if truthy strs then getitem0 strs else ret [])
  = ret (match strs with s :: _ => s | [] => [] end).
Proof. by destruct strs. Qed.

(** The [try] block of [create_completion], by cases on resolution and
    on the prompt. *)
Lemma completions_try_block_unfold now request p :
  completions.try_block now request p
  = match LLMFactory.get_instance (Some (cr_model request)) p with
    | (inl e, p1) => (inl e, p1)
    | (inr llm, p1) =>
        match normalized_prompt (cr_prompt request) with
        | Some s => completions.generate now request llm s p1
        | None =>
            (inr (JSONResponse 400
                    {| err_message :=
                         lit "Token lists as prompts are not supported";
                       err_type := lit "invalid_request_error";
                       err_param := Some (lit "prompt");
                       err_code := None |}), p1)
        end
    end.
Proof.
  unfold completions.try_block, mbind, M_mbind, M_bind.
  destruct (LLMFactory.get_instance (Some (cr_model request)) p)
    as [[e|llm] p1]; [reflexivity|].
  unfold normalized_prompt.
  destruct (cr_prompt request) as [s|l]; [reflexivity|].
  destruct (all_str l) as [strs|]; [|reflexivity].
  rewrite first_or_empty_returns. reflexivity.
Qed.

Lemma try_except_returns {A} (body : M A) (h1 h2 : PyException -> A)
    (p : Process) :
  try_except body (fun e => M_ret (h1 e)) (fun e => M_ret (h2 e)) p
  = match body p with
    | (inr x, p') => (inr x, p')
    | (inl e, p') =>
        (inr (if isinstance_ValueError e then h1 e else h2 e), p')
    end.
Proof.
  unfold try_except. destruct (body p) as [[e|x] p']; [|reflexivity].
  by destruct (isinstance_ValueError e).
Qed.

Lemma create_completion_unfold now request p :
  completions.create_completion now request p
  = match completions.try_block now request p with
    | (inr r, p') => (inr r, p')
    | (inl e, p') =>
        (inr (translated (lit "Completion request failed: ") e), p')
    end.
Proof.
  unfold completions.create_completion. rewrite try_except_returns.
  destruct (completions.try_block now request p) as [[e|r] p'];
    [|reflexivity].
  unfold translated, create_error_response. simpl.
  by destruct (isinstance_ValueError e).
Qed.

Lemma create_chat_completion_unfold now request p :
  chat_completions.create_chat_completion now request p
  = match chat_completions.try_block now request p with
    | (inr r, p') => (inr r, p')
    | (inl e, p') =>
        (inr (translated (lit "Chat completion request failed: ") e), p')
    end.
Proof.
  unfold chat_completions.create_chat_completion.
  rewrite try_except_returns.
  destruct (chat_completions.try_block now request p) as [[e|r] p'];
    [|reflexivity].
  unfold translated, create_error_response. simpl.
  by destruct (isinstance_ValueError e).
Qed.

(** A failure of [get_instance] is a failure of the [try] block. *)
Lemma resolution_failure_reaches_handler now request p e p' :
  LLMFactory.get_instance (Some (cr_model request)) p = (inl e, p') ->
  completions.try_block now request p = (inl e, p').
Proof.
  intros H. rewrite completions_try_block_unfold. by rewrite H.
Qed.

Lemma chat_resolution_failure_reaches_handler now request p e p' :
  LLMFactory.get_instance (Some (ccr_model request)) p = (inl e, p') ->
  chat_completions.try_block now request p = (inl e, p').
Proof.
  intros H. unfold chat_completions.try_block, mbind, M_mbind, M_bind.
  by rewrite H.
Qed.

(** A failure of the backend call is a failure of the [try] block. *)
Lemma backend_failure_reaches_handler now request p llm p1 s e :
  LLMFactory.get_instance (Some (cr_model request)) p = (inr llm, p1) ->
  normalized_prompt (cr_prompt request) = Some s ->
  completion_call_raises now request llm s e ->
  exists p', completions.try_block now request p = (inl e, p').
Proof.
  intros H Hs He. rewrite completions_try_block_unfold, H, Hs.
  unfold completion_call_raises in He.
  unfold completions.generate, mbind, M_mbind, M_bind.
  destruct (stream_requested (cr_stream request)); simpl;
    rewrite He; eauto.
Qed.

Lemma chat_backend_failure_reaches_handler now request p llm p1 e :
  LLMFactory.get_instance (Some (ccr_model request)) p = (inr llm, p1) ->
  chat_call_raises now request llm e ->
  exists p', chat_completions.try_block now request p = (inl e, p').
Proof.
  intros H He. unfold chat_call_raises in He.
  unfold chat_completions.try_block, mbind, M_mbind, M_bind. rewrite H.
  destruct (stream_requested (ccr_stream request)); simpl;
    rewrite He; eauto.
Qed.

(** When the backend call returns a generator, the handler answers with
    the framed stream, whatever the generator does later. *)
Lemma stream_reaches_framer now request p llm p1 s g :
  LLMFactory.get_instance (Some (cr_model request)) p = (inr llm, p1) ->
  normalized_prompt (cr_prompt request) = Some s ->
  stream_requested (cr_stream request) = true ->
  complete_stream (obj_class llm) now (cr_params request) s = inr g ->
  fst (completions.create_completion now request p)
  = inr (StreamingResponse (stream_generator g) (lit "text/event-stream")).
Proof.
  intros H Hs Hst Hg.
  rewrite create_completion_unfold, completions_try_block_unfold, H, Hs.
  unfold completions.generate, mbind, M_mbind, M_bind.
  rewrite Hst. simpl. by rewrite Hg.
Qed.

Lemma chat_stream_reaches_framer now request p llm p1 g :
  LLMFactory.get_instance (Some (ccr_model request)) p = (inr llm, p1) ->
  stream_requested (ccr_stream request) = true ->
  chat_complete_stream (obj_class llm) now (ccr_params request)
    (ccr_messages request) = inr g ->
  fst (chat_completions.create_chat_completion now request p)
  = inr (StreamingResponse (stream_generator g) (lit "text/event-stream")).
Proof.
  intros H Hst Hg. rewrite create_chat_completion_unfold.
  unfold chat_completions.try_block, mbind, M_mbind, M_bind.
  rewrite H, Hst. simpl. by rewrite Hg.
Qed.

Lemma stream_generator_raised {C} (items : list C) (e : PyException) :
  stream_generator (mkGen items (Raised e))
  = List.map DataChunk items ++ [DataError (server_error_data e); DONE].
Proof.
  unfold stream_generator. cbn [gen_items gen_stop].
  by rewrite stream_frames_app.
Qed.

(** C7, as stated, fails for a failure that comes out of a stream: the
    streaming request below reaches a backend whose generator raises a
    [ValueError] when it is first asked for a chunk; the handler has then
    already returned the streaming response, and the failure appears in
    it as an event of type ["server_error"], not as an
    ["invalid_request_error"] envelope with status 400. *)
Lemma C7_stream_failure_is_server_error :
  fst (completions.create_completion (frozen_clock 0) C7_stream_request
         C7_stream_process)
  = inr (StreamingResponse
           [ DataError {| err_message := lit "prompt too long";
                          err_type := lit "server_error";
                          err_param := None; err_code := None |};
             DONE ]
           (lit "text/event-stream"))
  /\ fst (completions.create_completion (frozen_clock 0) C7_stream_request
            C7_stream_process)
     <> inr (JSONResponse 400
               {| err_message := lit "prompt too long";
                  err_type := lit "invalid_request_error";
                  err_param := None; err_code := None |}).
Proof. split; [reflexivity|]. vm_compute. discriminate. Qed.

(** C7 (amended): neither handler ever raises: for every request and
    every state it returns a response.  A failure of [get_instance], and
    a failure of the backend call the handler makes, each end in an error
    envelope: type ["invalid_request_error"] with status 400 and the
    message of the exception if it is a [ValueError], type
    ["server_error"] with status 500 for any other exception; so does any
    exception the [try] block raises.  A failure that a generator raises
    after the backend call has returned it is not seen by the handler:
    the response is the stream, in which the failure is one event of type
    ["server_error"] followed by [DONE], whatever the class of the
    exception. *)
Theorem C7_failures_become_envelopes (now : clock)
    (request : CompletionRequest) (chat_request : ChatCompletionRequest)
    (p : Process) :
  ((exists r p', completions.create_completion now request p = (inr r, p'))
   /\ (forall e p1,
         LLMFactory.get_instance (Some (cr_model request)) p = (inl e, p1) ->
         completions.create_completion now request p
         = (inr (translated (lit "Completion request failed: ") e), p1))
   /\ (forall llm p1 s e,
         LLMFactory.get_instance (Some (cr_model request)) p = (inr llm, p1) ->
         normalized_prompt (cr_prompt request) = Some s ->
         completion_call_raises now request llm s e ->
         fst (completions.create_completion now request p)
         = inr (translated (lit "Completion request failed: ") e))
   /\ (forall e p',
         completions.try_block now request p = (inl e, p') ->
         completions.create_completion now request p
         = (inr (translated (lit "Completion request failed: ") e), p'))
   /\ (forall llm p1 s items e,
         LLMFactory.get_instance (Some (cr_model request)) p = (inr llm, p1) ->
         normalized_prompt (cr_prompt request) = Some s ->
         stream_requested (cr_stream request) = true ->
         complete_stream (obj_class llm) now (cr_params request) s
         = inr (mkGen items (Raised e)) ->
         fst (completions.create_completion now request p)
         = inr (StreamingResponse
                  (List.map DataChunk items
                     ++ [DataError (server_error_data e); DONE])
                  (lit "text/event-stream"))))
  /\ ((exists r p',
         chat_completions.create_chat_completion now chat_request p
         = (inr r, p'))
      /\ (forall e p1,
            LLMFactory.get_instance (Some (ccr_model chat_request)) p
            = (inl e, p1) ->
            chat_completions.create_chat_completion now chat_request p
            = (inr (translated (lit "Chat completion request failed: ") e),
               p1))
      /\ (forall llm p1 e,
            LLMFactory.get_instance (Some (ccr_model chat_request)) p
            = (inr llm, p1) ->
            chat_call_raises now chat_request llm e ->
            fst (chat_completions.create_chat_completion now chat_request p)
            = inr (translated (lit "Chat completion request failed: ") e))
      /\ (forall e p',
            chat_completions.try_block now chat_request p = (inl e, p') ->
            chat_completions.create_chat_completion now chat_request p
            = (inr (translated (lit "Chat completion request failed: ") e),
               p'))
      /\ (forall llm p1 items e,
            LLMFactory.get_instance (Some (ccr_model chat_request)) p
            = (inr llm, p1) ->
            stream_requested (ccr_stream chat_request) = true ->
            chat_complete_stream (obj_class llm) now (ccr_params chat_request)
              (ccr_messages chat_request)
            = inr (mkGen items (Raised e)) ->
            fst (chat_completions.create_chat_completion now chat_request p)
            = inr (StreamingResponse
                     (List.map DataChunk items
                        ++ [DataError (server_error_data e); DONE])
                     (lit "text/event-stream")))).
Proof.
  split; repeat split.
  - rewrite create_completion_unfold.
    destruct (completions.try_block now request p) as [[e|r] p']; eauto.
  - intros e p1 H. rewrite create_completion_unfold.
    by rewrite (resolution_failure_reaches_handler now request p e p1 H).
  - intros llm p1 s e H Hs He. rewrite create_completion_unfold.
    destruct (backend_failure_reaches_handler now request p llm p1 s e
                H Hs He) as [p' ->]. reflexivity.
  - intros e p' H. rewrite create_completion_unfold. by rewrite H.
  - intros llm p1 s items e H Hs Hst Hg.
    rewrite (stream_reaches_framer now request p llm p1 s _ H Hs Hst Hg).
    by rewrite stream_generator_raised.
  - rewrite create_chat_completion_unfold.
    destruct (chat_completions.try_block now chat_request p) as [[e|r] p'];
      eauto.
  - intros e p1 H. rewrite create_chat_completion_unfold.
    by rewrite (chat_resolution_failure_reaches_handler now chat_request
                  p e p1 H).
  - intros llm p1 e H He. rewrite create_chat_completion_unfold.
    destruct (chat_backend_failure_reaches_handler now chat_request p llm
                p1 e H He) as [p' ->]. reflexivity.
  - intros e p' H. rewrite create_chat_completion_unfold. by rewrite H.
  - intros llm p1 items e H Hst Hg.
    rewrite (chat_stream_reaches_framer now chat_request p llm p1 _ H Hst Hg).
    by rewrite stream_generator_raised.
Qed.

Lemma C7_failures_become_envelopes_witness :
  fst (completions.create_completion (frozen_clock 0) C7_request C7_process)
    = inr (JSONResponse 400
             {| err_message := lit "Model 'gpt-4' not found";
                err_type := lit "invalid_request_error";
                err_param := None; err_code := None |})
  /\ fst (chat_completions.create_chat_completion (frozen_clock 0)
            C7_chat_request C7_process)
     = inr (JSONResponse 500
              {| err_message :=
                   lit "Chat completion request failed: out of memory";
                 err_type := lit "server_error";
                 err_param := None; err_code := None |}).
Proof.
  destruct (C7_failures_become_envelopes (frozen_clock 0) C7_request
              C7_chat_request C7_process)
    as ((_ & H1 & _ & _ & _) & (_ & _ & H2 & _ & _)).
  split.
  - exact (eq_trans
             (f_equal fst
                (H1 (mkExc ValueError (lit "Model 'gpt-4' not found")) _
                    eq_refl))
             eq_refl).
  - exact (eq_trans
             (H2 _ _ (mkExc (OtherException (lit "RuntimeError"))
                        (lit "out of memory")) eq_refl eq_refl)
             eq_refl).
Defined.

(* ===================================================================== *)
(** * C8 and C10: prompts given as lists *)
(* ===================================================================== *)

Lemma all_str_strings (strs : list str) :
  all_str (List.map VStr strs) = Some strs.
Proof. induction strs as [|s strs IH]; simpl; [|rewrite IH]; reflexivity. Qed.

Lemma all_str_spec (l : list pyval) (strs : list str) :
  all_str l = Some strs <-> l = List.map VStr strs.
Proof.
  split; [|intros ->; apply all_str_strings].
  revert strs. induction l as [|[s|z|ys] l IH]; intros strs H; simpl in H;
    try discriminate.
  - by injection H as <-.
  - destruct (all_str l) as [ss|]; [|discriminate].
    injection H as <-. simpl. f_equal. by apply IH.
Qed.

Lemma all_str_forallb (l : list pyval) :
  forallb is_str l = true <-> is_Some (all_str l).
Proof.
  induction l as [|[s|z|ys] l IH]; simpl.
  - split; eauto.
  - rewrite IH. destruct (all_str l); split; eauto; intros [? ?]; discriminate.
  - split; [discriminate | intros [? ?]; discriminate].
  - split; [discriminate | intros [? ?]; discriminate].
Qed.

Lemma all_str_tokens (l : list pyval) :
  l <> [] -> forallb is_int l = true \/ forallb is_list l = true ->
  all_str l = None.
Proof.
  destruct l as [|[s|z|ys] l]; [congruence| | |]; intros _ [H|H];
    simpl in H; try discriminate; reflexivity.
Qed.

Lemma get_instance_calls (model_name : option str) (p : Process) :
  calls (snd (LLMFactory.get_instance model_name p)) = calls p.
Proof.
  assert (H : forall k q, calls (snd (LLMFactory.cached_or_new k q)) = calls q).
  { intros k q.
    destruct (cached_or_new_cases k q)
      as [(inst & _ & ->) | [(c & _ & _ & ->) | (_ & _ & ->)]]; reflexivity. }
  destruct model_name as [k|]; [apply H|].
  destruct (_default_model p) as [d|] eqn:Hd.
  - rewrite (get_instance_default d p Hd). apply H.
  - by rewrite (get_instance_no_default p Hd).
Qed.

Lemma generate_calls now request llm prompt p :
  calls (snd (completions.generate now request llm prompt p))
  = calls p ++ [generate_call request llm prompt].
Proof.
  unfold completions.generate, generate_call, mbind, M_mbind, M_bind.
  destruct (stream_requested (cr_stream request)); simpl.
  - by destruct (complete_stream _ _ _ _).
  - by destruct (complete _ _ _ _).
Qed.

(** C8, as stated, fails when the model name does not resolve: the
    request below, a token list for the unregistered model ["gpt-4"],
    passes the validator and is answered with an envelope that names no
    parameter. *)
Lemma C8_unknown_model_names_no_param :
  let request :=
    {| cr_model := lit "gpt-4";
       cr_prompt := PromptList [VInt 15496; VInt 11; VInt 995];
       cr_stream := None; cr_best_of := None;
       cr_params := mkGenParams None None None None None None None None
                      None |} in
  CompletionRequest_validate request = inr request
  /\ fst (completions.create_completion (frozen_clock 0) request
            (process_main 0))
     = inr (JSONResponse 400
              {| err_message := lit "Model 'gpt-4' not found";
                 err_type := lit "invalid_request_error";
                 err_param := None; err_code := None |})
  /\ fst (completions.create_completion (frozen_clock 0) request
            (process_main 0))
     <> inr token_list_reply.
Proof.
  cbv zeta. split; [reflexivity|]. split; [reflexivity|].
  vm_compute. discriminate.
Qed.

(** [get_instance] on a name fails only by not finding the model, and
    then leaves the state as it was. *)
Lemma get_instance_named_failure (k : str) (p p1 : Process) (e : PyException) :
  LLMFactory.get_instance (Some k) p = (inl e, p1) ->
  e = mkExc ValueError (lit "Model '" ++ k ++ lit "' not found") /\ p1 = p.
Proof.
  rewrite get_instance_named.
  destruct (cached_or_new_cases k p)
    as [(inst & _ & ->) | [(c & _ & _ & ->) | (_ & _ & ->)]];
    intros H; inversion H; by subst.
Qed.

(** C8 (amended): for every completion request whose prompt is given as
    a list: if every element is a string, the handler does exactly what
    it does for the request whose prompt is the first element (the empty
    string for an empty list), and the only backend call it may make is
    one call with that string; if the list is a nonempty sequence of
    integers or of lists, the handler returns a 400 envelope of type
    ["invalid_request_error"] and makes no backend call.  That envelope
    names the param ["prompt"] whenever the model name resolves;
    otherwise it is the envelope of the failed resolution, which names no
    param. *)
Theorem C8_list_prompts (now : clock) (request : CompletionRequest)
    (l : list pyval) (p : Process) :
  cr_prompt request = PromptList l ->
  (forall strs, l = List.map VStr strs ->
     let first := match strs with s :: _ => s | [] => [] end in
     completions.create_completion now request p
     = completions.create_completion now
         (with_prompt request (PromptStr first)) p
     /\ (calls (snd (completions.create_completion now request p)) = calls p
         \/ exists llm,
              calls (snd (completions.create_completion now request p))
              = calls p ++ [generate_call request llm first])
     /\ (forall llm p1,
           LLMFactory.get_instance (Some (cr_model request)) p
           = (inr llm, p1) ->
           calls (snd (completions.create_completion now request p))
           = calls p ++ [generate_call request llm first]))
  /\ (l <> [] -> forallb is_int l = true \/ forallb is_list l = true ->
      (exists err p',
         completions.create_completion now request p
         = (inr (JSONResponse 400 err), p')
         /\ err_type err = lit "invalid_request_error"
         /\ calls p' = calls p)
      /\ (forall llm p1,
            LLMFactory.get_instance (Some (cr_model request)) p
            = (inr llm, p1) ->
            completions.create_completion now request p
            = (inr token_list_reply, p1))
      /\ (forall e p1,
            LLMFactory.get_instance (Some (cr_model request)) p
            = (inl e, p1) ->
            completions.create_completion now request p
            = (inr (JSONResponse 400
                      {| err_message :=
                           lit "Model '" ++ cr_model request
                             ++ lit "' not found";
                         err_type := lit "invalid_request_error";
                         err_param := None; err_code := None |}), p))).
Proof.
  intros Hl.
  pose proof (get_instance_calls (Some (cr_model request)) p) as Hcalls.
  split.
  - intros strs -> first.
    assert (Hresolved : forall llm p1,
      LLMFactory.get_instance (Some (cr_model request)) p = (inr llm, p1) ->
      calls (snd (completions.create_completion now request p))
      = calls p ++ [generate_call request llm first]).
    { intros llm p1 Hllm. rewrite Hllm in Hcalls. simpl in Hcalls.
      rewrite create_completion_unfold, completions_try_block_unfold.
      rewrite Hllm, Hl. cbn [normalized_prompt]. rewrite all_str_strings.
      fold first.
      pose proof (generate_calls now request llm first p1) as Hg.
      destruct (completions.generate now request llm first p1)
        as [[e|r] p']; simpl in *; by rewrite Hg, Hcalls. }
    split; [|split; [|exact Hresolved]].
    + rewrite !create_completion_unfold, !completions_try_block_unfold.
      cbn [with_prompt cr_model cr_prompt]. rewrite Hl.
      cbn [normalized_prompt]. by rewrite all_str_strings.
    + destruct (LLMFactory.get_instance (Some (cr_model request)) p)
        as [[e|llm] p1] eqn:Hllm.
      * left. rewrite create_completion_unfold,
          completions_try_block_unfold, Hllm. exact Hcalls.
      * right. exists llm. by apply (Hresolved llm p1).
  - intros Hne Htok.
    assert (Hresolved : forall llm p1,
      LLMFactory.get_instance (Some (cr_model request)) p = (inr llm, p1) ->
      completions.create_completion now request p
      = (inr token_list_reply, p1)).
    { intros llm p1 Hllm.
      rewrite create_completion_unfold, completions_try_block_unfold.
      rewrite Hllm, Hl. cbn [normalized_prompt].
      by rewrite (all_str_tokens l Hne Htok). }
    assert (Hfailed : forall e p1,
      LLMFactory.get_instance (Some (cr_model request)) p = (inl e, p1) ->
      completions.create_completion now request p
      = (inr (JSONResponse 400
                {| err_message :=
                     lit "Model '" ++ cr_model request ++ lit "' not found";
                   err_type := lit "invalid_request_error";
                   err_param := None; err_code := None |}), p)).
    { intros e p1 Hllm.
      destruct (get_instance_named_failure _ _ _ _ Hllm) as [-> ->].
      rewrite create_completion_unfold, completions_try_block_unfold.
      by rewrite Hllm. }
    split; [|split; [exact Hresolved | exact Hfailed]].
    destruct (LLMFactory.get_instance (Some (cr_model request)) p)
      as [[e|llm] p1] eqn:Hllm.
    + rewrite (Hfailed e p1 eq_refl). eexists _, _. by repeat split.
    + rewrite (Hresolved llm p1 eq_refl). eexists _, _.
      split; [reflexivity|]. split; [reflexivity|]. exact Hcalls.
Qed.

Lemma C8_list_prompts_witness :
  (completions.create_completion (frozen_clock 0)
     (C8_request [VStr (lit "Hello"); VStr (lit "Bye")]) (process_main 0)
   = completions.create_completion (frozen_clock 0)
       (with_prompt (C8_request [VStr (lit "Hello"); VStr (lit "Bye")])
          (PromptStr (lit "Hello"))) (process_main 0)
   /\ calls (snd (completions.create_completion (frozen_clock 0)
                    (C8_request [VStr (lit "Hello"); VStr (lit "Bye")])
                    (process_main 0)))
      = [CallComplete 0 (lit "Hello")])
  /\ fst (completions.create_completion (frozen_clock 0)
            (C8_request [VInt 15496; VInt 11]) (process_main 0))
     = inr token_list_reply.
Proof.
  split.
  - destruct (proj1 (C8_list_prompts (frozen_clock 0)
                       (C8_request [VStr (lit "Hello"); VStr (lit "Bye")])
                       [VStr (lit "Hello"); VStr (lit "Bye")]
                       (process_main 0) eq_refl)
                [lit "Hello"; lit "Bye"] eq_refl) as (H1 & _ & H3).
    split; [exact H1|]. exact (H3 _ _ eq_refl).
  - destruct (proj2 (C8_list_prompts (frozen_clock 0)
                       (C8_request [VInt 15496; VInt 11])
                       [VInt 15496; VInt 11]
                       (process_main 0) eq_refl)
                ltac:(discriminate) (or_introl eq_refl)) as (_ & H2 & _).
    exact (f_equal fst (H2 _ _ eq_refl)).
Defined.


(* ===================================================================== *)
(** * The registry: which model is the default *)
(* ===================================================================== *)

(** The default model after a history: the name of the last registration
    made with [is_default=True]; or, when no registration asks for it,
    the name registered first. *)
Theorem default_model_rule (ops1 ops2 : list op) (model_name : str)
    (c : llm_class) (is_default : bool) :
  forallb (fun o => negb (is_default_register o)) ops2 = true ->
  is_default = true \/ forallb (fun o => negb (is_register o)) ops1 = true ->
  _default_model
    (run (ops1 ++ OpRegister model_name c is_default :: ops2) process_start)
  = Some model_name.
Proof.
  intros Hops2 Hfirst. rewrite run_app.
  change (run (OpRegister model_name c is_default :: ops2)
            (run ops1 process_start))
    with (run ops2 (LLMFactory.register model_name c is_default
                      (run ops1 process_start))).
  apply run_keeps_default; [exact Hops2|].
  cbn [LLMFactory.register _default_model].
  destruct Hfirst as [-> | Hops1]; [reflexivity|].
  destruct (istep_registrations _ _ (run_internal ops1 process_start Hops1))
    as [_ ->].
  simpl. by rewrite orb_true_r.
Qed.

Lemma default_model_rule_witness :
  _default_model
    (run ([OpRegister (lit "a") (MockLLM_class 0) false;
           OpRegister (lit "b") (MockLLM_class 0) true]
          ++ OpRegister (lit "c") (MockLLM_class 0) true
          :: [OpRegister (lit "d") (MockLLM_class 0) false;
              OpGetInstance None])
       process_start)
  = Some (lit "c")
  /\ _default_model
       (run ([OpGetAvailableModels]
             ++ OpRegister (lit "a") (MockLLM_class 0) false
             :: [OpRegister (lit "d") (MockLLM_class 0) false])
          process_start)
     = Some (lit "a").
Proof.
  split.
  - apply default_model_rule; [reflexivity | left; reflexivity].
  - apply default_model_rule; [reflexivity | right; reflexivity].
Defined.

(* ===================================================================== *)
(** * The registry: registering a name again *)
(* ===================================================================== *)

Lemma odict_set_names {V} (k : str) (v : V) (d : odict V) :
  List.map fst (odict_set k v d)
  = if decide (k ∈ List.map fst d) then List.map fst d
    else List.map fst d ++ [k].
Proof.
  induction d as [|[k' v'] d IH]; [reflexivity|].
  cbn [odict_set]. destruct (decide (k' = k)) as [->|Hne].
  - cbn [List.map fst]. rewrite decide_True by (by left). reflexivity.
  - cbn [List.map fst]. rewrite IH.
    destruct (decide (k ∈ List.map fst d)) as [Hin|Hout].
    + rewrite decide_True by (by right). reflexivity.
    + rewrite decide_False; [reflexivity|].
      intros Hin. apply elem_of_cons in Hin as [->|Hin]; congruence.
Qed.

(** Registering [model_name] (again): the class under the name is the
    one given last, the other names keep theirs, a name already present
    keeps its place in the order and a new one goes last.  The cache is
    not touched: an instance made for the name before stays the one
    [get_instance] returns, whatever class is registered now; only a name
    without an instance gets one of the new class. *)
Theorem register_again (p : Process) (model_name : str) (c : llm_class)
    (is_default : bool) :
  let p' := LLMFactory.register model_name c is_default p in
  odict_get model_name (_llm_classes p') = Some c
  /\ (forall k, k <> model_name ->
        odict_get k (_llm_classes p') = odict_get k (_llm_classes p))
  /\ registered_names p'
     = (if decide (model_name ∈ registered_names p) then registered_names p
        else registered_names p ++ [model_name])
  /\ _instances p' = _instances p
  /\ (forall inst, _instances p !! model_name = Some inst ->
        LLMFactory.get_instance (Some model_name) p' = (inr inst, p'))
  /\ (_instances p !! model_name = None ->
        fst (LLMFactory.get_instance (Some model_name) p')
        = inr {| obj_id := next_obj_id p; obj_class := c |}).
Proof.
  cbv zeta. split; [apply odict_get_set_eq|].
  split; [intros k Hk; by apply odict_get_set_ne|].
  split; [apply odict_set_names|]. split; [reflexivity|]. split.
  - intros inst Hi. rewrite get_instance_named.
    by apply cached_or_new_cached.
  - intros Hi. rewrite get_instance_named.
    destruct (cached_or_new_cases model_name
                (LLMFactory.register model_name c is_default p))
      as [(inst & Hi' & _) | [(c' & _ & Hc' & ->) | (_ & Hnone & _)]].
    + cbn [LLMFactory.register _instances] in Hi'. congruence.
    + cbn [LLMFactory.register _llm_classes] in Hc'.
      rewrite odict_get_set_eq in Hc'. by injection Hc' as <-.
    + cbn [LLMFactory.register _llm_classes] in Hnone.
      rewrite odict_get_set_eq in Hnone. discriminate.
Qed.

Lemma register_again_witness :
  let e := mkExc (OtherException (lit "RuntimeError")) (lit "down") in
  let p := snd (LLMFactory.get_instance (Some (lit "mock-gpt"))
                  (process_main 0)) in
  LLMFactory.get_instance (Some (lit "mock-gpt"))
    (LLMFactory.register (lit "mock-gpt") (FailingLLM_class e) true p)
  = (inr {| obj_id := 0; obj_class := MockLLM_class 0 |},
     LLMFactory.register (lit "mock-gpt") (FailingLLM_class e) true p)
  /\ fst (LLMFactory.get_instance (Some (lit "other"))
            (LLMFactory.register (lit "other") (FailingLLM_class e) false p))
     = inr {| obj_id := 1; obj_class := FailingLLM_class e |}.
Proof.
  cbv zeta. split.
  - exact (proj1 (proj2 (proj2 (proj2 (proj2
             (register_again
                (snd (LLMFactory.get_instance (Some (lit "mock-gpt"))
                        (process_main 0)))
                (lit "mock-gpt")
                (FailingLLM_class
                   (mkExc (OtherException (lit "RuntimeError")) (lit "down")))
                true)))))
             _ eq_refl).
  - exact (proj2 (proj2 (proj2 (proj2 (proj2
             (register_again
                (snd (LLMFactory.get_instance (Some (lit "mock-gpt"))
                        (process_main 0)))
                (lit "other")
                (FailingLLM_class
                   (mkExc (OtherException (lit "RuntimeError")) (lit "down")))
                false)))))
             eq_refl).
Defined.

(* ===================================================================== *)
(** * The registry: identities of the cached instances *)
(* ===================================================================== *)

Lemma identity_inv_start : identity_inv process_start.
Proof.
  split; simpl; intros *; rewrite lookup_empty; discriminate.
Qed.

Lemma identity_inv_pstep (p p' : Process) :
  pstep p p' -> identity_inv p -> identity_inv p'.
Proof.
  intros Hstep [Hlt Hinj Hreg].
  destruct Hstep as [k c b p | p p' Hin];
    [|destruct Hin as [k c p Hi Hk | c p]].
  - split; cbn [LLMFactory.register _instances next_obj_id _llm_classes];
      [exact Hlt | exact Hinj |].
    intros k' inst Hk'. apply odict_get_set_is_Some. eauto.
  - split; cbn [LLMFactory.instantiate _instances next_obj_id _llm_classes].
    + intros k' inst. destruct (decide (k = k')) as [->|Hne].
      * rewrite lookup_insert_eq. intros [= <-]. simpl. lia.
      * rewrite lookup_insert_ne by exact Hne. intros H.
        specialize (Hlt _ _ H). lia.
    + intros k1 k2 i1 i2 H1 H2 E.
      destruct (decide (k = k1)) as [E1|Hne1];
        destruct (decide (k = k2)) as [E2|Hne2].
      * congruence.
      * subst k1. rewrite lookup_insert_eq in H1.
        rewrite lookup_insert_ne in H2 by exact Hne2.
        injection H1 as <-. specialize (Hlt _ _ H2). simpl in E. lia.
      * subst k2. rewrite lookup_insert_eq in H2.
        rewrite lookup_insert_ne in H1 by exact Hne1.
        injection H2 as <-. specialize (Hlt _ _ H1). simpl in E. lia.
      * rewrite lookup_insert_ne in H1 by exact Hne1.
        rewrite lookup_insert_ne in H2 by exact Hne2.
        eapply Hinj; eauto.
    + intros k' inst. destruct (decide (k = k')) as [->|Hne].
      * intros _. eauto.
      * rewrite lookup_insert_ne by exact Hne. apply Hreg.
  - split; simpl; assumption.
Qed.

Lemma identity_inv_rtc (p p' : Process) :
  rtc pstep p p' -> identity_inv p -> identity_inv p'.
Proof.
  induction 1 as [|p q r Hpq _ IH]; [auto|].
  intros Hp. apply IH. eapply identity_inv_pstep; eauto.
Qed.

(** In every history of the process, two different model names never
    share an instance: the objects cached under them have different
    identities.  Every cached instance belongs to a name that is
    registered, and its identity is one the allocator has handed out. *)
Theorem instances_are_distinct (ops : list op) (k1 k2 : str)
    (i1 i2 : Instance) :
  let p := run ops process_start in
  _instances p !! k1 = Some i1 ->
  _instances p !! k2 = Some i2 ->
  k1 <> k2 ->
  obj_id i1 <> obj_id i2
  /\ is_Some (odict_get k1 (_llm_classes p))
  /\ (obj_id i1 < next_obj_id p)%nat.
Proof.
  cbv zeta. intros H1 H2 Hne.
  destruct (identity_inv_rtc _ _ (run_pstep ops process_start)
              identity_inv_start) as [Hlt Hinj Hreg].
  split; [|split; eauto].
  intros E. apply Hne. eapply Hinj; eauto.
Qed.

Lemma instances_are_distinct_witness :
  let ops := [OpRegister (lit "a") (MockLLM_class 0) false;
              OpRegister (lit "b") (MockLLM_class 1) false;
              OpGetInstance (Some (lit "b"));
              OpGetAvailableModels] in
  (1%nat <> 0%nat)
  /\ is_Some (odict_get (lit "a") (_llm_classes (run ops process_start)))
  /\ (1 < next_obj_id (run ops process_start))%nat.
Proof.
  cbv zeta.
  exact (instances_are_distinct
           [OpRegister (lit "a") (MockLLM_class 0) false;
            OpRegister (lit "b") (MockLLM_class 1) false;
            OpGetInstance (Some (lit "b"));
            OpGetAvailableModels]
           (lit "a") (lit "b")
           {| obj_id := 1; obj_class := MockLLM_class 0 |}
           {| obj_id := 0; obj_class := MockLLM_class 1 |}
           eq_refl eq_refl ltac:(discriminate)).
Defined.

(* ===================================================================== *)
(** * [get_available_models] and the model endpoints *)
(* ===================================================================== *)

Lemma odict_get_of_name {V} (k : str) (d : odict V) :
  k ∈ List.map fst d -> is_Some (odict_get k d).
Proof.
  induction d as [|[k' v] d IH]; simpl; [intros H; inversion H|].
  intros H. destruct (decide (k' = k)) as [->|Hne]; [eauto|].
  apply IH. apply elem_of_cons in H as [->|H]; [congruence | exact H].
Qed.

Lemma cached_models_ext (p q : Process) (k : str) :
  _instances p !! k = _instances q !! k ->
  cached_models p k = cached_models q k.
Proof. unfold cached_models. by intros ->. Qed.

(** What one run of the loop of [get_available_models] does. *)
Lemma collect_models_spec (names : list str) (models_ : list ModelInfo)
    (p : Process) :
  let r := LLMFactory.collect_models names models_ p in
  fst r = models_ ++ concat (List.map (cached_models (snd r)) names)
  /\ _llm_classes (snd r) = _llm_classes p
  /\ (forall k inst, _instances p !! k = Some inst ->
                     _instances (snd r) !! k = Some inst)
  /\ (forall k inst, _instances (snd r) !! k = Some inst ->
        _instances p !! k = Some inst
        \/ (k ∈ names /\ _instances p !! k = None
            /\ odict_get k (_llm_classes p) = Some (obj_class inst)))
  /\ (forall k, k ∈ names -> is_Some (odict_get k (_llm_classes p)) ->
                is_Some (_instances (snd r) !! k)).
Proof.
  cbv zeta. revert models_ p.
  induction names as [|k names IH]; intros models_ p.
  - simpl. rewrite app_nil_r. repeat split; auto.
    intros k H. inversion H.
  - cbn [LLMFactory.collect_models]. cbv zeta.
    set (p1 := match _instances p !! k with
               | Some _ => p
               | None => match odict_get k (_llm_classes p) with
                         | Some c => LLMFactory.instantiate k c p
                         | None => p
                         end
               end).
    assert (Hcls : _llm_classes p1 = _llm_classes p).
    { subst p1. destruct (_instances p !! k); [reflexivity|].
      by destruct (odict_get k (_llm_classes p)). }
    assert (Hkeep : forall k' inst, _instances p !! k' = Some inst ->
                                    _instances p1 !! k' = Some inst).
    { subst p1. intros k' inst Hk'.
      destruct (_instances p !! k) eqn:Hi; [exact Hk'|].
      destruct (odict_get k (_llm_classes p)); [|exact Hk'].
      cbn [LLMFactory.instantiate _instances].
      rewrite lookup_insert_ne; [exact Hk'|]. intros ->. congruence. }
    assert (Hnew : forall k' inst, _instances p1 !! k' = Some inst ->
      _instances p !! k' = Some inst
      \/ (k' = k /\ _instances p !! k' = None
          /\ odict_get k' (_llm_classes p) = Some (obj_class inst))).
    { subst p1. intros k' inst.
      destruct (_instances p !! k) eqn:Hi; [by left|].
      destruct (odict_get k (_llm_classes p)) eqn:Hc; [|by left].
      cbn [LLMFactory.instantiate _instances].
      destruct (decide (k = k')) as [<-|Hne].
      - rewrite lookup_insert_eq. intros [= <-]. right. by repeat split.
      - rewrite lookup_insert_ne by exact Hne. by left. }
    assert (Hhere : is_Some (odict_get k (_llm_classes p)) ->
                    is_Some (_instances p1 !! k)).
    { subst p1. intros [c Hc].
      destruct (_instances p !! k) eqn:Hi; [rewrite Hi; eauto|].
      rewrite Hc. cbn [LLMFactory.instantiate _instances].
      rewrite lookup_insert_eq. eauto. }
    fold (cached_models p1 k).
    specialize (IH (models_ ++ cached_models p1 k) p1).
    set (r := LLMFactory.collect_models names
                (models_ ++ cached_models p1 k) p1) in *.
    destruct IH as (Hm & Hc & Hk & Hn & Hs).
    split; [|split; [|split; [|split]]].
    + rewrite Hm, <- app_assoc. f_equal. cbn [List.map concat]. f_equal.
      apply cached_models_ext.
      destruct (_instances p1 !! k) as [inst|] eqn:Hi.
      * symmetry. exact (Hk _ _ Hi).
      * destruct (_instances (snd r) !! k) as [inst|] eqn:Hi';
          [|reflexivity].
        destruct (Hn _ _ Hi') as [H|(_ & _ & H)]; [congruence|].
        rewrite Hcls in H.
        destruct (Hhere ltac:(eauto)) as [? ?]. congruence.
    + by rewrite Hc.
    + intros k' inst H. apply Hk, Hkeep, H.
    + intros k' inst H. destruct (Hn _ _ H) as [H1|(Hin & Hnone & Hc')].
      * destruct (Hnew _ _ H1) as [H2|(-> & H2 & H3)]; [by left|].
        right. split; [by left | by split].
      * destruct (_instances p !! k') as [inst'|] eqn:Hp.
        -- rewrite (Hkeep _ _ Hp) in Hnone. discriminate.
        -- right. split; [by right|]. split; [reflexivity|].
           by rewrite <- Hcls.
    + intros k' Hin Hreg. apply elem_of_cons in Hin as [->|Hin].
      * destruct (Hhere Hreg) as [inst Hi]. rewrite (Hk _ _ Hi). eauto.
      * apply Hs; [exact Hin|]. by rewrite Hcls.
Qed.

(** When every name is cached the loop changes nothing. *)
Lemma collect_models_cached (names : list str) (models_ : list ModelInfo)
    (p : Process) :
  (forall k, k ∈ names -> is_Some (_instances p !! k)) ->
  LLMFactory.collect_models names models_ p
  = (models_ ++ concat (List.map (cached_models p) names), p).
Proof.
  revert models_. induction names as [|k names IH]; intros models_ Hall.
  - simpl. by rewrite app_nil_r.
  - cbn [LLMFactory.collect_models]. cbv zeta.
    destruct (Hall k ltac:(by left)) as [inst Hi]. rewrite Hi, Hi.
    rewrite IH by (intros k' Hk'; apply Hall; by right).
    rewrite <- app_assoc. cbn [List.map concat].
    unfold cached_models at 2. by rewrite Hi.
Qed.

(** What [get_available_models] lists, and that it fills the cache. *)
Lemma get_available_models_listed (p : Process) :
  let r := LLMFactory.get_available_models p in
  fst r = concat (List.map (cached_models (snd r)) (registered_names p))
  /\ forall k, k ∈ registered_names p -> is_Some (_instances (snd r) !! k).
Proof.
  cbv zeta. unfold LLMFactory.get_available_models.
  fold (registered_names p).
  destruct (collect_models_spec (registered_names p) [] p)
    as (Hm & _ & _ & _ & Hs).
  split; [exact Hm|].
  intros k Hin. apply Hs; [exact Hin|]. by apply odict_get_of_name.
Qed.

(** [get_available_models], from any state: the result is, name by name
    in the order of registration, what [get_models] gives for the
    instance that is in the cache afterwards; afterwards every registered
    name has an instance; no instance that was cached is replaced and no
    registration is changed; and calling it again returns the same list
    and changes nothing. *)
Theorem get_available_models_spec (p : Process) :
  let r := LLMFactory.get_available_models p in
  fst r = concat (List.map (cached_models (snd r)) (registered_names p))
  /\ (forall k, k ∈ registered_names p -> is_Some (_instances (snd r) !! k))
  /\ (forall k inst, _instances p !! k = Some inst ->
                     _instances (snd r) !! k = Some inst)
  /\ _llm_classes (snd r) = _llm_classes p
  /\ LLMFactory.get_available_models (snd r) = r.
Proof.
  cbv zeta. destruct (get_available_models_listed p) as [Hm Hall].
  unfold LLMFactory.get_available_models in *.
  fold (registered_names p) in *.
  destruct (collect_models_spec (registered_names p) [] p)
    as (_ & Hc & Hk & _ & _).
  split; [exact Hm|]. split; [exact Hall|]. split; [exact Hk|].
  split; [exact Hc|].
  rewrite Hc. fold (registered_names p).
  rewrite (collect_models_cached _ _ _ Hall). cbn [app].
  rewrite <- Hm.
  by destruct (LLMFactory.collect_models (registered_names p) [] p).
Qed.

Lemma available_models_unfold (p : Process) :
  available_models p
  = (inr (fst (LLMFactory.get_available_models p)),
     snd (LLMFactory.get_available_models p)).
Proof.
  unfold available_models.
  by destruct (LLMFactory.get_available_models p).
Qed.

Lemma first_with_id_Some (model_id : str) (models_ : list ModelInfo)
    (m : ModelInfo) :
  models.first_with_id model_id models_ = Some m ->
  info_id m = model_id /\ m ∈ models_.
Proof.
  induction models_ as [|x models_ IH]; simpl; [discriminate|].
  destruct (decide (info_id x = model_id)) as [E|Hne].
  - intros [= <-]. split; [exact E | by left].
  - intros H. destruct (IH H). split; [assumption | by right].
Qed.

Lemma first_with_id_first (model_id : str) (models_ : list ModelInfo)
    (m : ModelInfo) :
  models.first_with_id model_id models_ = Some m ->
  exists before after,
    models_ = before ++ m :: after
    /\ Forall (fun x => info_id x <> model_id) before.
Proof.
  induction models_ as [|x models_ IH]; simpl; [discriminate|].
  destruct (decide (info_id x = model_id)) as [E|Hne].
  - intros [= <-]. exists [], models_. split; [reflexivity | constructor].
  - intros H. destruct (IH H) as (before & after & -> & Hb).
    exists (x :: before), after. split; [reflexivity | by constructor].
Qed.

Lemma first_with_id_None (model_id : str) (models_ : list ModelInfo) :
  models.first_with_id model_id models_ = None ->
  forall m, m ∈ models_ -> info_id m <> model_id.
Proof.
  induction models_ as [|x models_ IH]; simpl; intros H m Hm;
    [inversion Hm|].
  destruct (decide (info_id x = model_id)) as [E|Hne]; [discriminate|].
  apply elem_of_cons in Hm as [->|Hm]; [exact Hne | by apply IH].
Qed.

(** The two model endpoints never raise.  [list_models] returns the list
    of [get_available_models].  [get_model] returns the first model of
    that list with the requested id when there is one, and otherwise,
    exactly when no listed model has that id, the 404 envelope of type
    ["invalid_request_error"] with param ["model"].  Both leave the state
    that [get_available_models] leaves. *)
Theorem model_endpoints (model_id : str) (p : Process) :
  let listed := fst (LLMFactory.get_available_models p) in
  let p' := snd (LLMFactory.get_available_models p) in
  models.list_models p
  = (inr (Returned {| list_object := lit "list"; list_data := listed |}), p')
  /\ ((exists m before after,
         models.get_model model_id p = (inr (Returned m), p')
         /\ info_id m = model_id
         /\ listed = before ++ m :: after
         /\ Forall (fun x => info_id x <> model_id) before)
      \/ (models.get_model model_id p
          = (inr (JSONResponse 404
                    {| err_message :=
                         lit "Model '" ++ model_id ++ lit "' not found";
                       err_type := lit "invalid_request_error";
                       err_param := Some (lit "model");
                       err_code := None |}), p')
          /\ forall m, m ∈ listed -> info_id m <> model_id)).
Proof.
  cbv zeta. unfold models.list_models, models.get_model,
    try_except_Exception, mbind, M_mbind, M_bind.
  rewrite available_models_unfold. split; [reflexivity|].
  destruct (models.first_with_id model_id
              (fst (LLMFactory.get_available_models p))) as [m|] eqn:Hf.
  - left. destruct (first_with_id_first _ _ _ Hf) as (before & after & E & Hb).
    exists m, before, after. split; [reflexivity|].
    split; [by destruct (first_with_id_Some _ _ _ Hf)|]. by split.
  - right. split; [reflexivity|]. by apply first_with_id_None.
Qed.

(* ===================================================================== *)
(** * The mock backend: token counts and the shape of its streams *)
(* ===================================================================== *)

Lemma count_prompt_tokens_nonneg (messages : list Message) :
  0 <= MockLLM.count_prompt_tokens messages.
Proof.
  unfold MockLLM.count_prompt_tokens.
  induction messages as [|m messages IH]; simpl; [lia|].
  pose proof (len_nonneg (split (content m))). lia.
Qed.

Lemma len_response_content (messages : list Message) :
  len (split (MockLLM.response_content messages))
  = if decide (role (MockLLM.last_message messages) = lit "user")
    then 7 + len (split (content (MockLLM.last_message messages)))
    else 11.
Proof.
  unfold MockLLM.response_content. case_decide; [|reflexivity].
  rewrite split_mock_chat_prefix, len_app. reflexivity.
Qed.

(** The token counts the mock reports.  A text completion counts the
    words of the prompt, and six more words for the completion; a chat
    completion counts the words of all messages, and for the completion
    seven more than the words of the last message when that is a user
    turn (or the list is empty), eleven otherwise.  The total is the sum,
    and no count is negative. *)
Theorem mock_usage (now : clock) (prompt : str) (messages : list Message) :
  usage (MockLLM.complete now prompt)
  = Some {| prompt_tokens := len (split prompt);
            completion_tokens := 6 + len (split prompt);
            total_tokens := len (split prompt) + (6 + len (split prompt)) |}
  /\ chat_usage (MockLLM.chat_complete now messages)
     = (let completion :=
          if decide (role (MockLLM.last_message messages) = lit "user")
          then 7 + len (split (content (MockLLM.last_message messages)))
          else 11 in
        {| prompt_tokens := MockLLM.count_prompt_tokens messages;
           completion_tokens := completion;
           total_tokens := MockLLM.count_prompt_tokens messages + completion |})
  /\ 0 <= len (split prompt)
  /\ 0 <= MockLLM.count_prompt_tokens messages.
Proof.
  split; [|split; [|split]].
  - unfold MockLLM.complete, _create_completion_response. cbn [usage].
    rewrite split_mock_prefix, len_app. reflexivity.
  - unfold MockLLM.chat_complete, _create_chat_completion_response.
    cbn [chat_usage]. cbv zeta. by rewrite len_response_content.
  - apply len_nonneg.
  - apply count_prompt_tokens_nonneg.
Qed.

Lemma length_enumerate_from {A} (k : Z) (l : list A) :
  length (enumerate_from k l) = length l.
Proof.
  revert k. induction l as [|a l IH]; intros k; [reflexivity|].
  simpl. by rewrite IH.
Qed.

Lemma len_map_enumerate {A B} (F : Z * A -> B) (l : list A) :
  len (List.map F (enumerate l)) = len l.
Proof.
  unfold len, enumerate. by rewrite length_map, length_enumerate_from.
Qed.

(** A property of every chunk made by the loop over the words. *)
Lemma Forall_map_enumerate {A B} (P : B -> Prop) (F : Z * A -> B)
    (l : list A) :
  (forall i w, P (F (i, w))) -> Forall P (List.map F (enumerate l)).
Proof.
  intros HF. apply Forall_forall. intros c Hc.
  apply list_elem_of_In, in_map_iff in Hc. destruct Hc as ([i w] & <- & _).
  apply HF.
Qed.

(** The usage of a stream is that of the single-shot call.  The chunks
    of [complete_stream] are one chunk per completion token, none of
    which carries a usage, and a last chunk whose usage is the one
    [complete] reports for the same prompt.  The chunks of
    [chat_complete_stream] are a first chunk, one chunk per completion
    token and a last chunk whose usage is the one [chat_complete]
    reports for the same messages. *)
Theorem stream_usage_agrees (now now' : clock) (prompt : str)
    (messages : list Message) :
  (exists body final,
     gen_items (MockLLM.complete_stream now prompt) = body ++ [final]
     /\ Forall (fun c => usage c = None) body
     /\ usage final = usage (MockLLM.complete now' prompt)
     /\ option_map completion_tokens (usage final) = Some (len body))
  /\ (exists first body final,
        gen_items (MockLLM.chat_complete_stream now messages)
          = first :: body ++ [final]
        /\ Forall (fun c => chunk_usage c = None) (first :: body)
        /\ chunk_usage final
           = Some (chat_usage (MockLLM.chat_complete now' messages))
        /\ option_map completion_tokens (chunk_usage final)
           = Some (len body)).
Proof.
  split.
  - unfold MockLLM.complete_stream. cbv zeta. cbn [gen_items].
    eexists _, _. split; [reflexivity|].
    split; [apply Forall_map_enumerate; reflexivity|].
    split; [reflexivity|].
    cbn [usage option_map completion_tokens]. by rewrite len_map_enumerate.
  - unfold MockLLM.chat_complete_stream. cbv zeta. cbn [gen_items].
    eexists _, _, _. split; [reflexivity|].
    split; [constructor; [reflexivity|];
            apply Forall_map_enumerate; reflexivity|].
    split; [reflexivity|].
    cbn [chunk_usage option_map completion_tokens].
    by rewrite len_map_enumerate.
Qed.

(** Every chunk of a stream carries the id, the creation time, the model
    name and (for text) the object tag of the single-shot result made
    under the same clock, and exactly one choice, of index 0; chat chunks
    are tagged ["chat.completion.chunk"]. *)
Theorem stream_chunks_share_envelope (now : clock) (prompt : str)
    (messages : list Message) :
  Forall (fun c =>
            id c = id (MockLLM.complete now prompt)
            /\ created c = created (MockLLM.complete now prompt)
            /\ model c = model (MockLLM.complete now prompt)
            /\ object c = object (MockLLM.complete now prompt)
            /\ exists ch, choices c = [ch] /\ index ch = 0)
    (gen_items (MockLLM.complete_stream now prompt))
  /\ Forall (fun c =>
               chunk_id c = chat_id (MockLLM.chat_complete now messages)
               /\ chunk_created c
                  = chat_created (MockLLM.chat_complete now messages)
               /\ chunk_model c
                  = chat_model (MockLLM.chat_complete now messages)
               /\ chunk_object c = lit "chat.completion.chunk"
               /\ exists ch, chunk_choices c = [ch] /\ chunk_index ch = 0)
       (gen_items (MockLLM.chat_complete_stream now messages)).
Proof.
  split.
  - unfold MockLLM.complete_stream. cbv zeta. cbn [gen_items].
    apply Forall_app. split.
    + apply Forall_map_enumerate. intros i w. repeat split. eauto.
    + constructor; [|constructor]. repeat split. eauto.
  - unfold MockLLM.chat_complete_stream. cbv zeta. cbn [gen_items].
    constructor; [repeat split; eauto|].
    apply Forall_app. split.
    + apply Forall_map_enumerate. intros i w. repeat split. eauto.
    + constructor; [|constructor]. repeat split. eauto.
Qed.

(** What the chunks of a stream carry.  In a text stream each chunk
    before the last carries one word of the single-shot text followed by
    one space, the words in order, and the last chunk carries the empty
    text.  In a chat stream the first chunk carries the role
    ["assistant"] and no content, each chunk between the first and the
    last carries no role and one word of the single-shot content followed
    by one space, the words in order, and the delta of the last chunk is
    empty. *)
Theorem stream_fragments (now now' : clock) (prompt : str)
    (messages : list Message) :
  (exists body final,
     gen_items (MockLLM.complete_stream now prompt) = body ++ [final]
     /\ List.map choice0_text body
        = List.map (fun w => w ++ lit " ")
            (split (choice0_text (MockLLM.complete now' prompt)))
     /\ choice0_text final = [])
  /\ (exists first body final,
        gen_items (MockLLM.chat_complete_stream now messages)
          = first :: body ++ [final]
        /\ choice0_delta first
           = {| delta_role := Some (lit "assistant");
                delta_content := None |}
        /\ List.map choice0_delta body
           = List.map (fun w => {| delta_role := None;
                                   delta_content := Some (w ++ lit " ") |})
               (split (choice0_content
                         (MockLLM.chat_complete now' messages)))
        /\ choice0_delta final
           = {| delta_role := None; delta_content := None |}).
Proof.
  split.
  - unfold MockLLM.complete_stream. cbv zeta. cbn [gen_items].
    eexists _, _. split; [reflexivity|]. split; [|reflexivity].
    rewrite List.map_map. apply map_enumerate_from. reflexivity.
  - unfold MockLLM.chat_complete_stream. cbv zeta. cbn [gen_items].
    eexists _, _, _. split; [reflexivity|]. split; [reflexivity|].
    split; [|reflexivity].
    rewrite List.map_map. apply map_enumerate_from. reflexivity.
Qed.

(* ===================================================================== *)
(** * The field validators of a completion request *)
(* ===================================================================== *)

Lemma forallb_list_of_ints (l : list pyval) :
  forallb is_list l
  && forallb (fun x => match x with
                       | VList ys => forallb is_int ys
                       | _ => true
                       end) l
  = forallb is_int_list l.
Proof.
  induction l as [|[s|z|ys] l IH]; simpl; try reflexivity.
  rewrite <- IH. destruct (forallb is_int ys), (forallb is_list l);
    reflexivity.
Qed.

Lemma validate_prompt_list (l : list pyval) :
  validate_prompt (PromptList l)
  = if negb (truthy l) then ret (PromptStr [])
    else if forallb is_int l || forallb is_int_list l || forallb is_str l
         then ret (PromptList l)
         else raise (mkExc ValueError MSG_PROMPT_MIXED).
Proof.
  unfold validate_prompt. rewrite forallb_list_of_ints.
  destruct (negb (truthy l)); [reflexivity|].
  destruct (forallb is_int l); [reflexivity|].
  destruct (forallb is_int_list l); [reflexivity|].
  by destruct (forallb is_str l).
Qed.

Lemma is_int_list_is_list (l : list pyval) :
  forallb is_int_list l = true -> forallb is_list l = true.
Proof.
  induction l as [|[s|z|ys] l IH]; simpl; try done.
  intros H. apply andb_true_iff in H as [_ H]. by apply IH.
Qed.

(** [validate_prompt]: a string is kept; the empty list becomes the empty
    string; a nonempty list is kept when its elements are all integers,
    all lists of integers, or all strings, and raises [ValueError]
    otherwise.  Validating what the validator returned returns it again.
    A list that comes out of the validator is not empty, and is either a
    list of strings or a list the handler answers with the token-list
    reply. *)
Theorem validate_prompt_spec (s : str) (l : list pyval) (v v' : Prompt) :
  validate_prompt (PromptStr s) = ret (PromptStr s)
  /\ validate_prompt (PromptList []) = ret (PromptStr [])
  /\ (l <> [] ->
      validate_prompt (PromptList l)
      = if forallb is_int l || forallb is_int_list l || forallb is_str l
        then ret (PromptList l)
        else raise (mkExc ValueError MSG_PROMPT_MIXED))
  /\ (validate_prompt v = ret v' -> validate_prompt v' = ret v')
  /\ (validate_prompt v = ret (PromptList l) ->
      l <> []
      /\ (is_Some (all_str l)
          \/ forallb is_int l = true \/ forallb is_list l = true)).
Proof.
  split; [reflexivity|]. split; [reflexivity|]. split; [|split].
  - intros Hne. rewrite validate_prompt_list.
    destruct l; [congruence | reflexivity].
  - destruct v as [s0|l0]; [by intros [= <-]|].
    rewrite validate_prompt_list.
    destruct l0 as [|x l0]; [by intros [= <-]|]. cbn [truthy negb].
    destruct (forallb is_int (x :: l0) || forallb is_int_list (x :: l0)
              || forallb is_str (x :: l0)) eqn:E; [|discriminate].
    intros [= <-]. rewrite validate_prompt_list. cbn [truthy negb].
    by rewrite E.
  - destruct v as [s0|l0]; [discriminate|].
    rewrite validate_prompt_list.
    destruct l0 as [|x l0]; [discriminate|]. cbn [truthy negb].
    destruct (forallb is_int (x :: l0)) eqn:E1;
      [intros [= <-]; split; [discriminate | by right; left]|].
    destruct (forallb is_int_list (x :: l0)) eqn:E2;
      [intros [= <-]; split; [discriminate|];
       right; right; by apply is_int_list_is_list|].
    destruct (forallb is_str (x :: l0)) eqn:E3; [|discriminate].
    intros [= <-]. split; [discriminate|]. left. by apply all_str_forallb.
Qed.

Lemma validate_prompt_spec_witness :
  validate_prompt (PromptList [VList [VInt 1; VInt 2]; VList []])
    = ret (PromptList [VList [VInt 1; VInt 2]; VList []])
  /\ validate_prompt (PromptList [VInt 1; VStr (lit "a")])
     = raise (mkExc ValueError MSG_PROMPT_MIXED)
  /\ validate_prompt (PromptList [VList [VStr (lit "a")]])
     = raise (mkExc ValueError MSG_PROMPT_MIXED)
  /\ validate_prompt (PromptStr []) = ret (PromptStr []).
Proof.
  split; [|split; [|split]].
  - exact (proj1 (proj2 (proj2
             (validate_prompt_spec [] [VList [VInt 1; VInt 2]; VList []]
                (PromptStr []) (PromptStr []))))
             ltac:(discriminate)).
  - exact (proj1 (proj2 (proj2
             (validate_prompt_spec [] [VInt 1; VStr (lit "a")]
                (PromptStr []) (PromptStr []))))
             ltac:(discriminate)).
  - exact (proj1 (proj2 (proj2
             (validate_prompt_spec [] [VList [VStr (lit "a")]]
                (PromptStr []) (PromptStr []))))
             ltac:(discriminate)).
  - exact (proj1 (proj2 (proj2 (proj2
             (validate_prompt_spec [] [] (PromptList []) (PromptStr [])))))
             eq_refl).
Defined.

Lemma validate_best_of_ok (v n_ v' : option Z) :
  validate_best_of v n_ = ret v' ->
  v' = v
  /\ forall b, v = Some b ->
               1 <= b /\ forall k, n_ = Some k -> k <= b.
Proof.
  unfold validate_best_of. destruct v as [b|]; [|intros [= <-]; by split].
  destruct (b <? 1) eqn:E1; [discriminate|]. apply Z.ltb_ge in E1.
  destruct n_ as [k|].
  - destruct (b <? k) eqn:E2; [discriminate|]. apply Z.ltb_ge in E2.
    intros [= <-]. split; [reflexivity|]. intros b' [= <-].
    split; [exact E1|]. by intros k' [= <-].
  - intros [= <-]. split; [reflexivity|]. intros b' [= <-].
    split; [exact E1 | discriminate].
Qed.

Lemma validate_prompt_error (v : Prompt) (e : PyException) :
  validate_prompt v = inl e -> isinstance_ValueError e = true.
Proof.
  destruct v as [s|l]; [discriminate|]. rewrite validate_prompt_list.
  destruct (negb (truthy l)); [discriminate|].
  destruct (forallb is_int l || forallb is_int_list l || forallb is_str l);
    [discriminate|]. by intros [= <-].
Qed.

Lemma validate_best_of_error (v n_ : option Z) (e : PyException) :
  validate_best_of v n_ = inl e -> isinstance_ValueError e = true.
Proof.
  unfold validate_best_of. destruct v as [b|]; [|discriminate].
  destruct (b <? 1); [by intros [= <-]|].
  destruct n_ as [k|]; [|discriminate].
  destruct (b <? k); [by intros [= <-] | discriminate].
Qed.

(** The validator [validate_best_of], on a value [v] of [best_of] and
    the value [n_] that [info.data] holds for ["n"] ([None] also when the
    key is missing).  It returns [None] as it is.  A number below 1 is
    refused with the [ValueError] on the bound 1, whatever [n_] is; a
    number that is at least 1 and below [n_] is refused with the
    [ValueError] on the bound [n]; any other number is returned as it is.
    So the validator never changes the value: it returns exactly when
    [v] is [None] or at least 1 and at least [n_], and everything it
    raises is a [ValueError]. *)
Theorem validate_best_of_spec (v n_ : option Z) :
  validate_best_of None n_ = ret None
  /\ (forall b, v = Some b -> b < 1 ->
        validate_best_of v n_ = raise (mkExc ValueError MSG_BEST_OF_LT_1))
  /\ (forall b k, v = Some b -> 1 <= b -> n_ = Some k -> b < k ->
        validate_best_of v n_ = raise (mkExc ValueError MSG_BEST_OF_LT_N))
  /\ (forall b, v = Some b -> 1 <= b -> (forall k, n_ = Some k -> k <= b) ->
        validate_best_of v n_ = ret v)
  /\ (forall v', validate_best_of v n_ = ret v' ->
        v' = v
        /\ forall b, v = Some b ->
                     1 <= b /\ forall k, n_ = Some k -> k <= b)
  /\ (forall e, validate_best_of v n_ = raise e ->
        isinstance_ValueError e = true).
Proof.
  split; [reflexivity|]. split; [|split; [|split; [|split]]].
  - intros b -> Hb. unfold validate_best_of.
    by rewrite (proj2 (Z.ltb_lt b 1) Hb).
  - intros b k -> Hb -> Hk. unfold validate_best_of.
    rewrite (proj2 (Z.ltb_ge b 1) Hb). by rewrite (proj2 (Z.ltb_lt b k) Hk).
  - intros b -> Hb Hn. unfold validate_best_of.
    rewrite (proj2 (Z.ltb_ge b 1) Hb). destruct n_ as [k|]; [|reflexivity].
    by rewrite (proj2 (Z.ltb_ge b k) (Hn k eq_refl)).
  - intros v'. apply validate_best_of_ok.
  - intros e. apply validate_best_of_error.
Qed.

(** [best_of] 0 against [n] 3, 2 against 3, 3 against 3, and 2 when
    there is no [n]. *)
Example validate_best_of_samples :
  validate_best_of (Some 0) (Some 3)
  = raise (mkExc ValueError MSG_BEST_OF_LT_1)
  /\ validate_best_of (Some 2) (Some 3)
     = raise (mkExc ValueError MSG_BEST_OF_LT_N)
  /\ validate_best_of (Some 3) (Some 3) = ret (Some 3)
  /\ validate_best_of (Some 2) None = ret (Some 2).
Proof. repeat split. Qed.

(* ===================================================================== *)
(** * The generation handlers: state and envelopes *)
(* ===================================================================== *)

(** [generate] makes its call and returns a result, a stream, or raises. *)
Lemma generate_cases now request llm s p :
  let p' := snd (log_call (generate_call request llm s) p) in
  (exists e, completions.generate now request llm s p = (inl e, p'))
  \/ (exists r, completions.generate now request llm s p
                = (inr (Returned r), p'))
  \/ (exists body mt, completions.generate now request llm s p
                      = (inr (StreamingResponse body mt), p')).
Proof.
  cbv zeta. unfold completions.generate, generate_call, mbind, M_mbind,
    M_bind.
  destruct (stream_requested (cr_stream request)); simpl.
  - destruct (complete_stream _ _ _ _) as [e|g]; [left; eauto|].
    right; right. unfold create_stream_response. eauto.
  - destruct (complete _ _ _ _) as [e|r]; [left; eauto|].
    right; left. eauto.
Qed.

Lemma chat_try_block_cases now request p :
  (exists e p1, LLMFactory.get_instance (Some (ccr_model request)) p
                = (inl e, p1)
                /\ chat_completions.try_block now request p = (inl e, p1))
  \/ (exists llm p1 call,
        LLMFactory.get_instance (Some (ccr_model request)) p = (inr llm, p1)
        /\ let p' := snd (log_call call p1) in
           (exists e, chat_completions.try_block now request p = (inl e, p'))
           \/ (exists r, chat_completions.try_block now request p
                         = (inr (Returned r), p'))
           \/ (exists body mt, chat_completions.try_block now request p
                               = (inr (StreamingResponse body mt), p'))).
Proof.
  unfold chat_completions.try_block, mbind, M_mbind, M_bind.
  destruct (LLMFactory.get_instance (Some (ccr_model request)) p)
    as [[e|llm] p1]; [left; eauto|].
  right. exists llm, p1.
  destruct (stream_requested (ccr_stream request)); simpl.
  - eexists. split; [reflexivity|]. cbv zeta.
    destruct (chat_complete_stream _ _ _ _) as [e|g]; [left; eauto|].
    right; right. unfold create_stream_response. eauto.
  - eexists. split; [reflexivity|]. cbv zeta.
    destruct (chat_complete _ _ _ _) as [e|r]; [left; eauto|].
    right; left. eauto.
Qed.

Lemma translated_well_formed {R C} (prefix : str) (e : PyException)
    (status_code : Z) (err : ErrorDict) :
  @translated R C prefix e = JSONResponse status_code err ->
  ((status_code = 400 /\ err_type err = lit "invalid_request_error")
   \/ (status_code = 500 /\ err_type err = lit "server_error"))
  /\ err_param err = None.
Proof.
  unfold translated. destruct (isinstance_ValueError e); intros [= <- <-];
    (split; [|reflexivity]); [left | right]; by split.
Qed.

(** Every error envelope the two generation handlers return pairs the
    status 400 with the type ["invalid_request_error"] or the status 500
    with the type ["server_error"]; the completion handler names no param
    or the param ["prompt"], the chat handler names none. *)
Theorem error_envelopes_well_formed (now : clock)
    (request : CompletionRequest) (chat_request : ChatCompletionRequest)
    (p : Process) (status_code : Z) (err : ErrorDict) :
  (fst (completions.create_completion now request p)
     = inr (JSONResponse status_code err) ->
   ((status_code = 400 /\ err_type err = lit "invalid_request_error")
    \/ (status_code = 500 /\ err_type err = lit "server_error"))
   /\ (err_param err = None \/ err_param err = Some (lit "prompt")))
  /\ (fst (chat_completions.create_chat_completion now chat_request p)
        = inr (JSONResponse status_code err) ->
      ((status_code = 400 /\ err_type err = lit "invalid_request_error")
       \/ (status_code = 500 /\ err_type err = lit "server_error"))
      /\ err_param err = None).
Proof.
  split.
  - rewrite create_completion_unfold, completions_try_block_unfold.
    destruct (LLMFactory.get_instance (Some (cr_model request)) p)
      as [[e|llm] p1].
    + simpl. intros [= H]. destruct (translated_well_formed _ _ _ _ H).
      split; [assumption | by left].
    + destruct (normalized_prompt (cr_prompt request)) as [s|].
      * destruct (generate_cases now request llm s p1)
          as [[e ->] | [[r ->] | (body & mt & ->)]]; simpl;
          try discriminate.
        intros [= H]. destruct (translated_well_formed _ _ _ _ H).
        split; [assumption | by left].
      * simpl. intros [= <- <-]. split; [left; by split | by right].
  - rewrite create_chat_completion_unfold.
    destruct (chat_try_block_cases now chat_request p)
      as [(e & p1 & _ & ->) | (llm & p1 & call & _ & H)].
    + simpl. intros [= H]. by apply translated_well_formed in H.
    + cbv zeta in H. destruct H as [[e ->] | [[r ->] | (body & mt & ->)]];
        simpl; try discriminate.
      intros [= H]. by apply translated_well_formed in H.
Qed.

Lemma error_envelopes_well_formed_witness :
  ((400 = 400 /\ lit "invalid_request_error" = lit "invalid_request_error")
   \/ (400 = 500 /\ lit "invalid_request_error" = lit "server_error"))
  /\ (Some (lit "prompt") = None
      \/ Some (lit "prompt") = Some (lit "prompt")).
Proof.
  exact (proj1 (error_envelopes_well_formed (frozen_clock 0)
                  (C8_request [VInt 15496; VInt 11]) C7_chat_request
                  (process_main 0) 400
                  {| err_message :=
                       lit "Token lists as prompts are not supported";
                     err_type := lit "invalid_request_error";
                     err_param := Some (lit "prompt");
                     err_code := None |})
           eq_refl).
Defined.

(** The state after [get_instance] on a name. *)
Lemma get_instance_named_state (k : str) (p : Process) :
  snd (LLMFactory.get_instance (Some k) p) = p
  \/ exists c, _instances p !! k = None
               /\ odict_get k (_llm_classes p) = Some c
               /\ snd (LLMFactory.get_instance (Some k) p)
                  = LLMFactory.instantiate k c p.
Proof.
  rewrite get_instance_named.
  destruct (cached_or_new_cases k p)
    as [(inst & _ & ->) | [(c & Hi & Hc & ->) | (_ & _ & ->)]];
    [by left | right; eauto | by left].
Qed.

(** The state a generation handler leaves: that of [get_instance] on the
    requested model, with at most one call logged. *)
Lemma create_completion_state now request p :
  let p1 := snd (LLMFactory.get_instance (Some (cr_model request)) p) in
  snd (completions.create_completion now request p) = p1
  \/ exists call, snd (completions.create_completion now request p)
                  = snd (log_call call p1).
Proof.
  cbv zeta. rewrite create_completion_unfold, completions_try_block_unfold.
  destruct (LLMFactory.get_instance (Some (cr_model request)) p)
    as [[e|llm] p1]; [by left|].
  destruct (normalized_prompt (cr_prompt request)) as [s|]; [|by left].
  right. exists (generate_call request llm s).
  destruct (generate_cases now request llm s p1)
    as [[e ->] | [[r ->] | (body & mt & ->)]]; reflexivity.
Qed.

Lemma create_chat_completion_state now request p :
  let p1 := snd (LLMFactory.get_instance (Some (ccr_model request)) p) in
  snd (chat_completions.create_chat_completion now request p) = p1
  \/ exists call, snd (chat_completions.create_chat_completion now request p)
                  = snd (log_call call p1).
Proof.
  cbv zeta. rewrite create_chat_completion_unfold.
  destruct (chat_try_block_cases now request p)
    as [(e & p1 & -> & ->) | (llm & p1 & call & -> & H)]; [by left|].
  right. exists call. cbv zeta in H.
  destruct H as [[e ->] | [[r ->] | (body & mt & ->)]]; reflexivity.
Qed.

Lemma handler_state_effect (k : str) (p p' : Process) :
  (p' = snd (LLMFactory.get_instance (Some k) p)
   \/ exists call,
        p' = snd (log_call call (snd (LLMFactory.get_instance (Some k) p)))) ->
  _llm_classes p' = _llm_classes p
  /\ _default_model p' = _default_model p
  /\ (forall k', k' <> k -> _instances p' !! k' = _instances p !! k')
  /\ (forall inst, _instances p !! k = Some inst ->
                   _instances p' !! k = Some inst)
  /\ (calls p' = calls p \/ exists call, calls p' = calls p ++ [call]).
Proof.
  intros Hp'.
  assert (H1 : forall q, (q = p \/ exists c, _instances p !! k = None
                            /\ q = LLMFactory.instantiate k c p) ->
    _llm_classes q = _llm_classes p
    /\ _default_model q = _default_model p
    /\ (forall k', k' <> k -> _instances q !! k' = _instances p !! k')
    /\ (forall inst, _instances p !! k = Some inst ->
                     _instances q !! k = Some inst)
    /\ calls q = calls p).
  { intros q [-> | (c & Hi & ->)]; [by repeat split|].
    cbn [LLMFactory.instantiate _llm_classes _default_model _instances calls].
    split; [reflexivity|]. split; [reflexivity|].
    split; [|split; [congruence | reflexivity]].
    intros k' Hne. by rewrite lookup_insert_ne. }
  assert (Hq : snd (LLMFactory.get_instance (Some k) p) = p
               \/ exists c, _instances p !! k = None
                            /\ snd (LLMFactory.get_instance (Some k) p)
                               = LLMFactory.instantiate k c p).
  { destruct (get_instance_named_state k p) as [H|(c & Hi & _ & H)];
      [by left | right; eauto]. }
  destruct (H1 _ Hq) as (Hc & Hd & Ho & Hs & Hcalls).
  destruct Hp' as [-> | (call & ->)].
  - split; [exact Hc|]. split; [exact Hd|]. split; [exact Ho|].
    split; [exact Hs | by left].
  - cbn [log_call snd _llm_classes _default_model _instances calls].
    split; [exact Hc|]. split; [exact Hd|]. split; [exact Ho|].
    split; [exact Hs|]. right. exists call. by rewrite Hcalls.
Qed.

(** A generation handler changes no registration and not the default
    model; in the cache it touches the entry of the requested model only,
    and it never replaces an instance found there; it makes at most one
    backend call. *)
Theorem handlers_leave_registry (now : clock) (request : CompletionRequest)
    (chat_request : ChatCompletionRequest) (p : Process) :
  (let p' := snd (completions.create_completion now request p) in
   _llm_classes p' = _llm_classes p
   /\ _default_model p' = _default_model p
   /\ (forall k, k <> cr_model request ->
                 _instances p' !! k = _instances p !! k)
   /\ (forall inst, _instances p !! cr_model request = Some inst ->
                    _instances p' !! cr_model request = Some inst)
   /\ (calls p' = calls p \/ exists call, calls p' = calls p ++ [call]))
  /\ (let p' := snd (chat_completions.create_chat_completion now
                       chat_request p) in
      _llm_classes p' = _llm_classes p
      /\ _default_model p' = _default_model p
      /\ (forall k, k <> ccr_model chat_request ->
                    _instances p' !! k = _instances p !! k)
      /\ (forall inst, _instances p !! ccr_model chat_request = Some inst ->
                       _instances p' !! ccr_model chat_request = Some inst)
      /\ (calls p' = calls p \/ exists call, calls p' = calls p ++ [call])).
Proof.
  split; cbv zeta; apply handler_state_effect.
  - destruct (create_completion_state now request p) as [H|[call H]];
      [by left | right; eauto].
  - destruct (create_chat_completion_state now chat_request p)
      as [H|[call H]]; [by left | right; eauto].
Qed.

(* ===================================================================== *)
(** * A model name that is not registered *)
(* ===================================================================== *)

Lemma unregistered_not_cached (ops : list op) (k : str) :
  odict_get k (_llm_classes (run ops process_start)) = None ->
  _instances (run ops process_start) !! k = None.
Proof.
  intros Hk.
  destruct (identity_inv_rtc _ _ (run_pstep ops process_start)
              identity_inv_start) as [_ _ Hreg].
  destruct (_instances (run ops process_start) !! k) as [inst|] eqn:Hi;
    [|reflexivity].
  destruct (Hreg _ _ Hi) as [c Hc]. congruence.
Qed.

Lemma get_instance_unknown (k : str) (p : Process) :
  _instances p !! k = None -> odict_get k (_llm_classes p) = None ->
  LLMFactory.get_instance (Some k) p
  = (inl (mkExc ValueError (lit "Model '" ++ k ++ lit "' not found")), p).
Proof.
  intros Hi Hc. rewrite get_instance_named.
  unfold LLMFactory.cached_or_new. by rewrite Hi, Hc.
Qed.

(** In every history of the process, a request for a model name that is
    not registered is answered, by both generation handlers and whatever
    else the request holds, with the 400 envelope of type
    ["invalid_request_error"] saying that the model was not found; the
    backend is not called and the process state is left as it was. *)
Theorem unknown_model_rejected (ops : list op) (now : clock)
    (request : CompletionRequest) (chat_request : ChatCompletionRequest) :
  let p := run ops process_start in
  (odict_get (cr_model request) (_llm_classes p) = None ->
   completions.create_completion now request p
   = (inr (JSONResponse 400
             {| err_message :=
                  lit "Model '" ++ cr_model request ++ lit "' not found";
                err_type := lit "invalid_request_error";
                err_param := None; err_code := None |}), p))
  /\ (odict_get (ccr_model chat_request) (_llm_classes p) = None ->
      chat_completions.create_chat_completion now chat_request p
      = (inr (JSONResponse 400
                {| err_message :=
                     lit "Model '" ++ ccr_model chat_request
                       ++ lit "' not found";
                   err_type := lit "invalid_request_error";
                   err_param := None; err_code := None |}), p)).
Proof.
  cbv zeta. split; intros Hk.
  - pose proof (get_instance_unknown _ _
                  (unregistered_not_cached ops _ Hk) Hk) as H.
    rewrite create_completion_unfold.
    by rewrite (resolution_failure_reaches_handler now request _ _ _ H).
  - pose proof (get_instance_unknown _ _
                  (unregistered_not_cached ops _ Hk) Hk) as H.
    rewrite create_chat_completion_unfold.
    by rewrite (chat_resolution_failure_reaches_handler now chat_request
                  _ _ _ H).
Qed.

Lemma unknown_model_rejected_witness :
  let ops := [OpRegister (lit "mock-gpt") (MockLLM_class 0) true;
              OpGetInstance None] in
  completions.create_completion (frozen_clock 0) C7_request
    (run ops process_start)
  = (inr (JSONResponse 400
            {| err_message := lit "Model 'gpt-4' not found";
               err_type := lit "invalid_request_error";
               err_param := None; err_code := None |}),
     run ops process_start)
  /\ chat_completions.create_chat_completion (frozen_clock 0) C7_chat_request
       (run ops process_start)
     = (inr (JSONResponse 400
               {| err_message := lit "Model 'broken' not found";
                  err_type := lit "invalid_request_error";
                  err_param := None; err_code := None |}),
        run ops process_start).
Proof.
  cbv zeta.
  destruct (unknown_model_rejected
              [OpRegister (lit "mock-gpt") (MockLLM_class 0) true;
               OpGetInstance None]
              (frozen_clock 0) C7_request C7_chat_request) as [H1 H2].
  split; [exact (H1 eq_refl) | exact (H2 eq_refl)].
Defined.

(* ===================================================================== *)
(** * The server as [main.py] sets it up *)
(* ===================================================================== *)

Lemma only_mock_main (tz : Z) : only_mock tz (process_main tz).
Proof.
  split; [reflexivity|]. intros k inst.
  cbn [process_main LLMFactory.register _instances process_start].
  rewrite lookup_empty. discriminate.
Qed.

Lemma only_mock_istep (tz : Z) (p p' : Process) :
  istep p p' -> only_mock tz p -> only_mock tz p'.
Proof.
  intros Hstep [Hcls Hcache]. destruct Hstep as [k c p Hi Hk | c p].
  - rewrite Hcls in Hk. simpl in Hk.
    destruct (decide (lit "mock-gpt" = k)) as [<-|Hne]; [|discriminate].
    injection Hk as <-.
    split; cbn [LLMFactory.instantiate _llm_classes _instances];
      [exact Hcls|].
    intros k' inst. destruct (decide (lit "mock-gpt" = k')) as [<-|Hne].
    + rewrite lookup_insert_eq. intros [= <-]. by split.
    + rewrite lookup_insert_ne by exact Hne. apply Hcache.
  - split; simpl; assumption.
Qed.

Lemma only_mock_rtc (tz : Z) (p p' : Process) :
  rtc istep p p' -> only_mock tz p -> only_mock tz p'.
Proof.
  induction 1 as [|p q r Hpq _ IH]; [auto|].
  intros Hp. apply IH. eapply only_mock_istep; eauto.
Qed.

(** With only the mock registered, ["mock-gpt"] resolves to a mock. *)
Lemma only_mock_resolves (tz : Z) (p : Process) :
  only_mock tz p ->
  exists llm p1,
    LLMFactory.get_instance (Some (lit "mock-gpt")) p = (inr llm, p1)
    /\ obj_class llm = MockLLM_class tz.
Proof.
  intros [Hcls Hcache]. rewrite get_instance_named.
  destruct (cached_or_new_cases (lit "mock-gpt") p)
    as [(inst & Hi & ->) | [(c & _ & Hc & ->) | (_ & Hc & _)]].
  - eexists _, _. split; [reflexivity|]. by destruct (Hcache _ _ Hi).
  - eexists _, _. split; [reflexivity|]. rewrite Hcls in Hc.
    cbn [odict_get] in Hc.
    rewrite decide_True in Hc by reflexivity. by injection Hc as <-.
  - rewrite Hcls in Hc. cbn [odict_get] in Hc.
    rewrite decide_True in Hc by reflexivity. discriminate.
Qed.

(** After [main.py] and any history without a further registration, a
    request for ["mock-gpt"] with a string prompt is always served: the
    completion handler returns what [MockLLM.complete] gives for the
    prompt, or for a streaming request the chunks of
    [MockLLM.complete_stream] as data frames followed by [DONE], with no
    error event; the chat handler does the same with the chat
    operations and the messages of the request. *)
Theorem mock_requests_are_served (tz : Z) (ops : list op) (now : clock)
    (prompt : str) (messages : list Message) (stream_ : option bool)
    (best_of_ : option Z) (params : GenParams) :
  forallb (fun o => negb (is_register o)) ops = true ->
  let p := run ops (process_main tz) in
  fst (completions.create_completion now
         {| cr_model := lit "mock-gpt"; cr_prompt := PromptStr prompt;
            cr_stream := stream_; cr_best_of := best_of_;
            cr_params := params |} p)
  = inr (if stream_requested stream_
         then StreamingResponse
                (List.map DataChunk
                   (gen_items (MockLLM.complete_stream now prompt))
                 ++ [DONE])
                (lit "text/event-stream")
         else Returned (MockLLM.complete now prompt))
  /\ fst (chat_completions.create_chat_completion now
            {| ccr_model := lit "mock-gpt"; ccr_messages := messages;
               ccr_stream := stream_; ccr_params := params |} p)
     = inr (if stream_requested stream_
            then StreamingResponse
                   (List.map DataChunk
                      (gen_items (MockLLM.chat_complete_stream now messages))
                    ++ [DONE])
                   (lit "text/event-stream")
            else Returned (MockLLM.chat_complete now messages)).
Proof.
  intros Hops. cbv zeta.
  pose proof (only_mock_rtc tz _ _ (run_internal ops (process_main tz) Hops)
                (only_mock_main tz)) as Hmock.
  destruct (only_mock_resolves tz _ Hmock) as (llm & p1 & Hllm & Hclass).
  split.
  - rewrite create_completion_unfold, completions_try_block_unfold.
    cbn [cr_model cr_prompt normalized_prompt]. rewrite Hllm.
    unfold completions.generate, mbind, M_mbind, M_bind.
    cbn [cr_stream cr_params]. rewrite Hclass.
    destruct (stream_requested stream_); simpl.
    + unfold create_stream_response, stream_generator.
      by rewrite stream_frames_app.
    + reflexivity.
  - rewrite create_chat_completion_unfold.
    unfold chat_completions.try_block, mbind, M_mbind, M_bind.
    cbn [ccr_model ccr_stream ccr_params ccr_messages]. rewrite Hllm.
    rewrite Hclass.
    destruct (stream_requested stream_); simpl.
    + unfold create_stream_response, stream_generator.
      by rewrite stream_frames_app.
    + reflexivity.
Qed.

Lemma mock_requests_are_served_witness :
  let ops := [OpGetAvailableModels; OpGetInstance (Some (lit "gpt-4"));
              OpPostCompletions (frozen_clock 5) C7_request] in
  fst (completions.create_completion (frozen_clock 9)
         {| cr_model := lit "mock-gpt";
            cr_prompt := PromptStr (lit "Hello, world!");
            cr_stream := Some false; cr_best_of := Some 1;
            cr_params := cr_params C7_request |}
         (run ops (process_main 0)))
  = inr (Returned (MockLLM.complete (frozen_clock 9) (lit "Hello, world!"))).
Proof.
  cbv zeta.
  exact (proj1 (mock_requests_are_served 0
                  [OpGetAvailableModels; OpGetInstance (Some (lit "gpt-4"));
                   OpPostCompletions (frozen_clock 5) C7_request]
                  (frozen_clock 9) (lit "Hello, world!") [] (Some false)
                  (Some 1) (cr_params C7_request) eq_refl)).
Defined.

(** After [main.py] and any history without a further registration, the
    model list is the one model of the mock, with id ["mock-gpt-1"];
    [get_model] returns that model for this id and the 404 envelope for
    every other id, the registered name ["mock-gpt"] included. *)
Theorem mock_model_listing (tz : Z) (ops : list op) (model_id : str) :
  forallb (fun o => negb (is_register o)) ops = true ->
  let p := run ops (process_main tz) in
  fst (models.list_models p)
  = inr (Returned {| list_object := lit "list";
                     list_data := MockLLM.get_models tz |})
  /\ fst (models.get_model model_id p)
     = inr (if decide (model_id = lit "mock-gpt-1")
            then Returned {| info_id := lit "mock-gpt-1";
                            info_object := lit "model";
                            info_created := tz;
                            info_owned_by := lit "mock-organization";
                            info_permission := [];
                            info_root := lit "mock-gpt-1";
                            info_parent := None |}
            else JSONResponse 404
                   {| err_message :=
                        lit "Model '" ++ model_id ++ lit "' not found";
                      err_type := lit "invalid_request_error";
                      err_param := Some (lit "model");
                      err_code := None |}).
Proof.
  intros Hops. cbv zeta.
  set (p := run ops (process_main tz)).
  pose proof (only_mock_rtc tz _ _ (run_internal ops (process_main tz) Hops)
                (only_mock_main tz)) as Hmock. fold p in Hmock.
  pose proof (only_mock_rtc tz _ _ (collect_models_internal
                (registered_names p) [] p) Hmock) as Hmock'.
  destruct (get_available_models_listed p) as [Hm Hall].
  unfold LLMFactory.get_available_models in Hm, Hall.
  fold (registered_names p) in Hm, Hall.
  assert (Hnames : registered_names p = [lit "mock-gpt"]).
  { unfold registered_names. by rewrite (mock_registered _ _ Hmock). }
  assert (Hlisted : fst (LLMFactory.get_available_models p)
                    = MockLLM.get_models tz).
  { unfold LLMFactory.get_available_models. fold (registered_names p).
    destruct (Hall (lit "mock-gpt")) as [inst Hi];
      [rewrite Hnames; by left|].
    set (r := LLMFactory.collect_models (registered_names p) [] p) in *.
    rewrite Hm, Hnames. cbn [List.map concat]. rewrite app_nil_r.
    unfold cached_models. rewrite Hi.
    by destruct (mock_cached _ _ Hmock' _ _ Hi) as [_ ->]. }
  unfold models.list_models, models.get_model, try_except_Exception,
    mbind, M_mbind, M_bind.
  rewrite available_models_unfold, Hlisted. split; [reflexivity|].
  cbn [MockLLM.get_models models.first_with_id info_id].
  change MockLLM.model_id with (lit "mock-gpt-1").
  destruct (decide (lit "mock-gpt-1" = model_id)) as [<-|Hne].
  - rewrite decide_True by reflexivity. reflexivity.
  - rewrite decide_False by congruence. reflexivity.
Qed.

Lemma mock_model_listing_witness :
  fst (models.get_model (lit "mock-gpt")
         (run [OpGetInstance None] (process_main 0)))
  = inr (JSONResponse 404
           {| err_message := lit "Model 'mock-gpt' not found";
              err_type := lit "invalid_request_error";
              err_param := Some (lit "model");
              err_code := None |}).
Proof.
  exact (proj2 (mock_model_listing 0 [OpGetInstance None] (lit "mock-gpt")
                  eq_refl)).
Defined.
